(** * rust-code-analysis.py: metric aggregation and statistics report

    A shallow embedding of [rust-code-analysis.py] and the properties of
    its aggregation and reporting pipeline.

    Conventions of the embedding.
    - A Python [dict] is an association list in insertion order with
      pairwise distinct keys ([dict_wf]); iteration follows the list.
      [append_metrics] is applied to a destination and a source that are
      distinct objects, as everywhere in the program.
    - Values produced by [json.load] are [pyval]s: [PInt] for an [int]
      and [PFloat q] for the [float] read from a literal of value [q]
      written with a fraction or an exponent, which is the float nearest
      to [q] (an infinity beyond the range of floats).  The literals
      [-0.0], [NaN], [Infinity] and [-Infinity] are outside the model.
    - Numbers are Python's: an [int] is unbounded, a [float] is an IEEE
      754 binary64 value with its signed zeros, infinities and NaN, and
      arithmetic on floats rounds to nearest, ties to even.  The
      functions of the [statistics] module are those of Python 3.11.
    - Strings are sequences of one-byte characters; the width of a
      padded field counts them.
    - A raised exception is the [Raise] branch of [result].
    - The file system is what [open] and [json.load] find at each path,
      and a directory is a [tree] whose entries come in the order in
      which [os.walk] lists them. *)

From Stdlib Require Import List String Ascii Bool Arith ZArith QArith Qcanon.
From Stdlib Require Import Lia Permutation Sorted.
From Stdlib Require Import DecimalString.
Import ListNotations.

Close Scope Qc_scope.
Close Scope Q_scope.
Open Scope string_scope.
Open Scope list_scope.

Set Implicit Arguments.
Set Warnings "-register-all".

(** ** Exceptions *)

Inductive error : Type :=
| TypeError
| KeyError
| ValueError
| StatisticsError
| OverflowError
| AttributeError
| JSONDecodeError
| FileNotFoundError.

Inductive result (A : Type) : Type :=
| Ok (a : A)
| Raise (e : error).

Arguments Ok {A} a.
Arguments Raise {A} e.

Definition bind {A B : Type} (r : result A) (k : A -> result B) : result B :=
  match r with
  | Ok a => k a
  | Raise e => Raise e
  end.

Notation "x <- e ;; k" := (bind e (fun x => k))
  (at level 61, e at next level, right associativity).

(** A [for] loop whose body may raise: the first exception ends it. *)
Fixpoint for_each {A S : Type} (body : S -> A -> result S) (xs : list A)
  (s : S) : result S :=
  match xs with
  | [] => Ok s
  | x :: xs' => s' <- body s x ;; for_each body xs' s'
  end.

(** ** Python values *)

Inductive pyval : Type :=
| PNone
| PBool (b : bool)
| PInt (z : Z)
| PFloat (q : Q)
| PStr (s : string)
| PList (xs : list pyval)
| PDict (items : list (string * pyval)).

(** ** Dictionaries *)

Definition dict (V : Type) : Type := list (string * V).

Fixpoint dict_get {V : Type} (k : string) (d : dict V) : option V :=
  match d with
  | [] => None
  | (k', v) :: d' => if String.eqb k k' then Some v else dict_get k d'
  end.

(** [k in d] *)
Definition dict_mem {V : Type} (k : string) (d : dict V) : bool :=
  match dict_get k d with
  | Some _ => true
  | None => false
  end.

(** [d[k] = v]: an existing key keeps its place, a new one goes last. *)
Fixpoint dict_set {V : Type} (k : string) (v : V) (d : dict V) : dict V :=
  match d with
  | [] => [(k, v)]
  | (k', v') :: d' =>
      if String.eqb k k' then (k', v) :: d' else (k', v') :: dict_set k v d'
  end.

(** [d[k]] *)
Definition subscript {V : Type} (d : dict V) (k : string) : result V :=
  match dict_get k d with
  | Some v => Ok v
  | None => Raise KeyError
  end.

Definition keys {V : Type} (d : dict V) : list string := map fst d.

Definition dict_wf {V : Type} (d : dict V) : Prop := NoDup (keys d).

(** ** The aggregated mapping: group -> name -> series *)

Definition series : Type := list pyval.
Definition group_map : Type := dict series.
Definition metrics_map : Type := dict group_map.

(** [ret[k1][k2]] *)
Definition getitem2 (ret : metrics_map) (k1 k2 : string) : result series :=
  g <- subscript ret k1 ;; subscript g k2.

(** [ret[k1][k2] = v] *)
Definition setitem2 (ret : metrics_map) (k1 k2 : string) (v : series)
  : result metrics_map :=
  g <- subscript ret k1 ;; Ok (dict_set k1 (dict_set k2 v g) ret).

(** Body of the inner loop of [append_metrics] (lines 23-28). *)
Definition append_leaf (k1 : string) (ret : metrics_map)
  (kv : string * pyval) : result metrics_map :=
  let (k2, v2) := kv in
  g <- subscript ret k1 ;;
  ret <- (if dict_mem k2 g then Ok ret else setitem2 ret k1 k2 []) ;;
  match v2 with
  | PList xs =>
      old <- getitem2 ret k1 k2 ;; setitem2 ret k1 k2 (old ++ xs)
  | _ =>
      old <- getitem2 ret k1 k2 ;; setitem2 ret k1 k2 (old ++ [v2])
  end.

(** Body of the outer loop of [append_metrics] (lines 18-22). *)
Definition append_group (ret : metrics_map) (kv : string * pyval)
  : result metrics_map :=
  let (k1, v1) := kv in
  match v1 with
  | PDict items =>
      let ret := if dict_mem k1 ret then ret else dict_set k1 [] ret in
      for_each (append_leaf k1) items ret
  | _ => Ok ret
  end.

(** [append_metrics(ret, metrics)]; [metrics] is given by its items. *)
Definition append_metrics (ret : metrics_map) (metrics : dict pyval)
  : result metrics_map :=
  for_each append_group metrics ret.

(** ** The merge as a pure function

    [merge] is what [append_metrics] computes, with the subscripts that
    cannot fail removed; [append_metrics_merge] relates the two. *)

Definition leaf_values (v2 : pyval) : series :=
  match v2 with
  | PList xs => xs
  | _ => [v2]
  end.

Definition or_empty {A : Type} (o : option (list A)) : list A :=
  match o with
  | Some l => l
  | None => []
  end.

Definition merge_leaf (g : group_map) (kv : string * pyval) : group_map :=
  dict_set (fst kv) (or_empty (dict_get (fst kv) g) ++ leaf_values (snd kv)) g.

Definition merge_group (ret : metrics_map) (kv : string * pyval)
  : metrics_map :=
  match snd kv with
  | PDict items =>
      dict_set (fst kv)
        (fold_left merge_leaf items (or_empty (dict_get (fst kv) ret))) ret
  | _ => ret
  end.

Definition merge (ret : metrics_map) (metrics : dict pyval) : metrics_map :=
  fold_left merge_group metrics ret.

(** The series stored for a (group, name) pair. *)
Definition lookup2 (ret : metrics_map) (k1 k2 : string) : option series :=
  match dict_get k1 ret with
  | Some g => dict_get k2 g
  | None => None
  end.

(** What a source contributes to a pair, in iteration order. *)
Definition is_dict (v : pyval) : bool :=
  match v with
  | PDict _ => true
  | _ => false
  end.

Definition items_of (v : pyval) : dict pyval :=
  match v with
  | PDict items => items
  | _ => []
  end.

Definition select {V : Type} (k : string) (d : dict V) : list V :=
  map snd (filter (fun kv => String.eqb k (fst kv)) d).

Definition group_items (k1 : string) (metrics : dict pyval) : dict pyval :=
  flat_map items_of (select k1 metrics).

Definition occurs (k1 k2 : string) (metrics : dict pyval) : bool :=
  dict_mem k2 (group_items k1 metrics).

Definition contrib (k1 k2 : string) (metrics : dict pyval) : series :=
  flat_map leaf_values (select k2 (group_items k1 metrics)).

(** Well-formed mappings: keys are distinct at both levels. *)
Definition map_wf (ret : metrics_map) : Prop :=
  dict_wf ret /\ Forall (fun kv => dict_wf (snd kv)) ret.

Definition source_wf (metrics : dict pyval) : Prop :=
  dict_wf metrics /\ Forall (fun kv => dict_wf (items_of (snd kv))) metrics.

(** A per-file result handed to [append_metrics] as its source. *)
Definition as_source (m : metrics_map) : dict pyval :=
  map (fun kg => (fst kg,
                  PDict (map (fun ks => (fst ks, PList (snd ks))) (snd kg)))) m.

(** The rows of the aggregated mapping, in iteration order. *)
Definition entries (ret : metrics_map) : list (string * string * series) :=
  flat_map (fun kg => map (fun ks => (fst kg, fst ks, snd ks)) (snd kg)) ret.

(** ** Metric extractor: [analyze_file]

    The parsed document is untyped; [in], subscript and iteration follow
    Python's rules for each kind of value. *)

Definition is_str (key : string) (v : pyval) : bool :=
  match v with
  | PStr s => String.eqb key s
  | _ => false
  end.

Definition is_substring (key s : string) : bool :=
  match String.index 0 key s with
  | Some _ => true
  | None => false
  end.

(** [key in v] for a string [key] *)
Definition contains (key : string) (v : pyval) : result bool :=
  match v with
  | PDict items => Ok (dict_mem key items)
  | PList xs => Ok (existsb (is_str key) xs)
  | PStr s => Ok (is_substring key s)
  | _ => Raise TypeError
  end.

(** [v[key]] for a string [key] *)
Definition getitem (v : pyval) (key : string) : result pyval :=
  match v with
  | PDict items => subscript items key
  | _ => Raise TypeError
  end.

(** The elements [for x in v] runs over. *)
Definition iterate (v : pyval) : result (list pyval) :=
  match v with
  | PList xs => Ok xs
  | PDict items => Ok (map (fun kv => PStr (fst kv)) items)
  | PStr s =>
      Ok (map (fun c => PStr (String c EmptyString)) (list_ascii_of_string s))
  | _ => Raise TypeError
  end.

(** Body of the loop over [s1['spaces']] (lines 40-45). *)
Definition analyze_inner (ret : metrics_map) (s2 : pyval)
  : result metrics_map :=
  present <- contains "metrics" s2 ;;
  if negb present then Ok ret
  else
    metrics <- getitem s2 "metrics" ;;
    match metrics with
    | PDict items => append_metrics ret items
    | _ => Ok ret
    end.

(** Body of the loop over [d['spaces']] (lines 37-45). *)
Definition analyze_outer (ret : metrics_map) (s1 : pyval)
  : result metrics_map :=
  present <- contains "spaces" s1 ;;
  if negb present then Ok ret
  else
    inner <- getitem s1 "spaces" ;;
    xs <- iterate inner ;;
    for_each analyze_inner xs ret.

(** [analyze_file] after [json.load] (lines 31, 34-46). *)
Definition analyze_doc (d : pyval) : result metrics_map :=
  present <- contains "spaces" d ;;
  if negb present then Ok []
  else
    spaces <- getitem d "spaces" ;;
    xs <- iterate spaces ;;
    for_each analyze_outer xs [].

(** What [open] and [json.load] find at a path. *)
Inductive file : Type :=
| Malformed
| Document (d : pyval).

Definition filesystem : Type := string -> option file.

Definition analyze_file (fs : filesystem) (filename : string)
  : result metrics_map :=
  match fs filename with
  | None => Raise FileNotFoundError
  | Some Malformed => Raise JSONDecodeError
  | Some (Document d) => analyze_doc d
  end.

(** The loop of [analyze_files] (lines 49-52). *)
Definition aggregate_step (fs : filesystem) (ret : metrics_map)
  (filename : string) : result metrics_map :=
  data <- analyze_file fs filename ;;
  append_metrics ret (as_source data).

Definition aggregate (fs : filesystem) (filenames : list string)
  : result metrics_map :=
  for_each (aggregate_step fs) filenames [].

(** ** File discovery: [find_files] *)

Inductive tree : Type :=
| Dir (files : list string) (dirs : list (string * tree)).

Definition ends_with_slash (s : string) : bool :=
  match rev (list_ascii_of_string s) with
  | c :: _ => Ascii.eqb c "/"
  | [] => false
  end.

(** [os.path.join(a, b)] *)
Definition path_join (a b : string) : string :=
  if String.prefix "/" b then b
  else if (String.eqb a "" || ends_with_slash a)%bool then (a ++ b)%string
  else (a ++ "/" ++ b)%string.

(** [os.walk], top-down: the (root, files) of every directory. *)
Fixpoint walk (root : string) (t : tree) : list (string * list string) :=
  match t with
  | Dir files dirs =>
      (root, files)
      :: (fix walk_dirs (ds : list (string * tree)) :=
            match ds with
            | [] => []
            | (name, sub) :: ds' =>
                walk (path_join root name) sub ++ walk_dirs ds'
            end) dirs
  end.

(** [fnmatch] for patterns made of literals, [?] and [*]. *)
Fixpoint glob (p : list ascii) : list ascii -> bool :=
  match p with
  | [] => fun s => match s with [] => true | _ :: _ => false end
  | c :: p' =>
      if Ascii.eqb c "*" then
        fix star (s : list ascii) : bool :=
          (glob p' s
           || match s with [] => false | _ :: s' => star s' end)%bool
      else
        fun s =>
          match s with
          | [] => false
          | d :: s' => ((Ascii.eqb c "?" || Ascii.eqb c d) && glob p' s')%bool
          end
  end.

Definition fnmatch (pattern name : string) : bool :=
  glob (list_ascii_of_string pattern) (list_ascii_of_string name).

Definition find_files (directory pattern : string) (t : tree) : list string :=
  flat_map (fun rf => map (path_join (fst rf)) (filter (fnmatch pattern) (snd rf)))
           (walk directory t).

(** ** Python numbers *)

(** A finite [float] is a multiple of [2^-1074] below [2^1024] with at
    most 53 significant bits: it is held by its sign and its magnitude
    in units of [2^-1074]. *)
Inductive pyfloat : Type :=
| Finite (negative : bool) (units : Z)
| Inf (negative : bool)
| NaN.

(** An observation or a statistic: an [int] (a [bool] counts as one) or
    a [float]. *)
Inductive pynum : Type :=
| NInt (z : Z)
| NFloat (f : pyfloat).

(** The units in 1.0 and in [2^1024]. *)
Definition one_unit : Z := 2 ^ 1074.
Definition overflow_units : Z := 2 ^ 2098.

(** Nearest integer to [n / d], ties to even ([0 <= n], [0 < d]). *)
Definition round_div (n d : Z) : Z :=
  let q := (n / d)%Z in
  match (2 * (n mod d) ?= d)%Z with
  | Lt => q
  | Gt => (q + 1)%Z
  | Eq => if Z.even q then q else (q + 1)%Z
  end.

(** [n / d] units rounded to 53 significant bits, ties to even. *)
Definition round_units (n d : Z) : Z :=
  let k := Z.max (Z.log2 (n / d) - 52) 0 in
  (round_div n (d * 2 ^ k) * 2 ^ k)%Z.

(** The correctly rounded quotient of two integers, [0 < d]: Python's
    [n / d], and with it [float(n)] and [float(Fraction(n, d))]. *)
Definition true_divide (n d : Z) : result pyfloat :=
  let u := round_units (Z.abs n * one_unit) d in
  if (overflow_units <=? u)%Z then Raise OverflowError
  else Ok (Finite (n <? 0)%Z u).

(** The [float] of a JSON literal of value [q]. *)
Definition float_of_literal (q : Q) : pyfloat :=
  let u := round_units (Z.abs (Qnum q) * one_unit) (Zpos (Qden q)) in
  if (overflow_units <=? u)%Z then Inf (Qnum q <? 0)%Z
  else Finite (Qnum q <? 0)%Z u.

Definition signed (negative : bool) (u : Z) : Z :=
  if negative then (- u)%Z else u.

(** [a + b] on floats. *)
Definition float_add (a b : pyfloat) : pyfloat :=
  match a, b with
  | NaN, _ => NaN
  | _, NaN => NaN
  | Inf s, Inf s' => if Bool.eqb s s' then Inf s else NaN
  | Inf s, Finite _ _ => Inf s
  | Finite _ _, Inf s => Inf s
  | Finite s u, Finite s' u' =>
      let t := (signed s u + signed s' u')%Z in
      if (t =? 0)%Z then Finite (s && s') 0
      else
        let r := round_units (Z.abs t) 1 in
        if (overflow_units <=? r)%Z then Inf (t <? 0)%Z
        else Finite (t <? 0)%Z r
  end.

(** [a / 2] on a float. *)
Definition float_halve (a : pyfloat) : pyfloat :=
  match a with
  | Finite s u => Finite s (round_units u 2)
  | _ => a
  end.

(** [float(x)] *)
Definition to_float (x : pynum) : result pyfloat :=
  match x with
  | NInt z => true_divide z 1
  | NFloat f => Ok f
  end.

(** [(a + b) / 2] *)
Definition py_average (a b : pynum) : result pynum :=
  match a, b with
  | NInt x, NInt y => f <- true_divide (x + y) 2 ;; Ok (NFloat f)
  | _, _ =>
      fa <- to_float a ;;
      fb <- to_float b ;;
      Ok (NFloat (float_halve (float_add fa fb)))
  end.

(** The place of a number on the line, in units: Python compares an
    [int] and a [float] by their exact values. *)
Inductive place : Type :=
| Below
| At (units : Z)
| Above.

Definition place_of (x : pynum) : option place :=
  match x with
  | NInt z => Some (At (z * one_unit))
  | NFloat (Finite s u) => Some (At (signed s u))
  | NFloat (Inf s) => Some (if s then Below else Above)
  | NFloat NaN => None
  end.

Definition place_ltb (a b : place) : bool :=
  match a, b with
  | Below, Below => false
  | Below, _ => true
  | At _, Below => false
  | At x, At y => (x <? y)%Z
  | At _, Above => true
  | Above, _ => false
  end.

(** [x < y] *)
Definition num_ltb (x y : pynum) : bool :=
  match place_of x, place_of y with
  | Some a, Some b => place_ltb a b
  | _, _ => false
  end.

(** ** Numbers and the built-ins [sorted], [min], [max] *)

(** The number a JSON value is. *)
Definition number (v : pyval) : option pynum :=
  match v with
  | PBool b => Some (NInt (if b then 1 else 0))
  | PInt z => Some (NInt z)
  | PFloat q => Some (NFloat (float_of_literal q))
  | _ => None
  end.

Fixpoint numbers (vs : list pyval) : option (list pynum) :=
  match vs with
  | [] => Some []
  | v :: vs' =>
      match number v, numbers vs' with
      | Some q, Some qs => Some (q :: qs)
      | _, _ => None
      end
  end.

Fixpoint insert_sorted (x : pynum) (l : list pynum) : list pynum :=
  match l with
  | [] => [x]
  | y :: l' => if num_ltb y x then y :: insert_sorted x l' else x :: l
  end.

(** A stable sort; on numbers [sorted] returns this list. *)
Fixpoint sort_numbers (l : list pynum) : list pynum :=
  match l with
  | [] => []
  | x :: l' => insert_sorted x (sort_numbers l')
  end.

(** [sorted(v2)] (line 57).  A series holding a value that is not a
    number cannot be reported: [sorted] raises [TypeError] when two
    values do not compare, and when it returns (a single value, or
    strings or lists only) [statistics.mean] raises [TypeError] next,
    [min] and [max] in between writing nothing.  The model raises the
    [TypeError] here for all of these. *)
Definition py_sorted (v2 : series) : result (list pynum) :=
  match v2 with
  | [] => Ok []
  | _ :: _ =>
      match numbers v2 with
      | Some qs => Ok (sort_numbers qs)
      | None => Raise TypeError
      end
  end.

(** [min(v2)]: the first smallest element. *)
Definition py_min (v2 : list pynum) : result pynum :=
  match v2 with
  | [] => Raise ValueError
  | x :: l =>
      Ok (fold_left (fun best item => if num_ltb item best then item else best)
            l x)
  end.

(** [max(v2)]: the first largest element. *)
Definition py_max (v2 : list pynum) : result pynum :=
  match v2 with
  | [] => Raise ValueError
  | x :: l =>
      Ok (fold_left (fun best item => if num_ltb best item then item else best)
            l x)
  end.

(** ** The [statistics] module of Python 3.11 *)

Definition is_float (x : pynum) : bool :=
  match x with
  | NFloat _ => true
  | NInt _ => false
  end.

(** The infinite observations, which [_exact_ratio] sets apart. *)
Fixpoint infinite (data : list pynum) : list pyfloat :=
  match data with
  | [] => []
  | NFloat (Finite _ _) :: data' => infinite data'
  | NInt _ :: data' => infinite data'
  | NFloat f :: data' => f :: infinite data'
  end.

(** The exact value of a finite number. *)
Definition exact (x : pynum) : Qc :=
  match x with
  | NInt z => Q2Qc (inject_Z z)
  | NFloat (Finite s u) => Q2Qc (inject_Z (signed s u) / inject_Z one_unit)
  | NFloat _ => 0%Qc
  end.

Definition count_of {A : Type} (l : list A) : Qc :=
  Q2Qc (inject_Z (Z.of_nat (List.length l))).

Definition total (l : list Qc) : Qc := fold_left Qcplus l 0%Qc.

(** [float(value)] of a fraction. *)
Definition float_of_fraction (value : Qc) : result pyfloat :=
  true_divide (Qnum value) (Zpos (Qden value)).

(** [_convert(value, T)], where [T] is [int] when no observation is a
    float: an integral value stays an [int]. *)
Definition convert (value : Qc) (T_is_float : bool) : result pynum :=
  if negb T_is_float && Pos.eqb (Qden value) 1 then Ok (NInt (Qnum value))
  else f <- float_of_fraction value ;; Ok (NFloat f).

(** [statistics.mean]: the exact sum over the count, converted; with an
    infinite observation, the float sum of the infinite ones. *)
Definition statistics_mean (data : list pynum) : result pynum :=
  match data with
  | [] => Raise StatisticsError
  | _ :: _ =>
      match infinite data with
      | f :: fs => Ok (NFloat (fold_left float_add fs f))
      | [] =>
          convert (total (map exact data) / count_of data)%Qc
                  (existsb is_float data)
      end
  end.

(** [statistics.median]; it sorts its argument itself. *)
Definition statistics_median (data : list pynum) : result pynum :=
  let data := sort_numbers data in
  let n := List.length data in
  if Nat.eqb n 0 then Raise StatisticsError
  else if Nat.eqb (n mod 2) 1 then Ok (nth (n / 2) data (NInt 0))
  else
    let i := (n / 2)%nat in
    py_average (nth (i - 1) data (NInt 0)) (nth i data (NInt 0)).

(** [int.bit_length] *)
Definition bit_length (z : Z) : Z :=
  if (z =? 0)%Z then 0%Z else (Z.log2 (Z.abs z) + 1)%Z.

(** [_integer_sqrt_of_frac_rto]: the square root of [n / m] rounded to
    an integer, to the odd one when it is not exact. *)
Definition integer_sqrt_of_frac_rto (n m : Z) : Z :=
  let a := Z.sqrt (n / m) in
  Z.lor a (if (a * a * m =? n)%Z then 0 else 1).

(** [_float_sqrt_of_frac] *)
Definition float_sqrt_of_frac (n m : Z) : result pyfloat :=
  let q := ((bit_length n - bit_length m - 109) / 2)%Z in
  if (0 <=? q)%Z then
    true_divide
      (Z.shiftl (integer_sqrt_of_frac_rto n (Z.shiftl m (2 * q))) q) 1
  else
    true_divide (integer_sqrt_of_frac_rto (Z.shiftl n (- 2 * q)) m)
                (Z.shiftl 1 (- q)).

(** [statistics.stdev]: with [sx] the sum and [sxx] the sum of squares,
    the square root of [((n * sxx - sx * sx) / n) / (n - 1)]; with an
    infinite observation the sum of squares is a float, whose
    numerator the function asks for. *)
Definition statistics_stdev (data : list pynum) : result pyfloat :=
  if Nat.ltb (List.length data) 2 then Raise StatisticsError
  else
    match infinite data with
    | _ :: _ => Raise AttributeError
    | [] =>
        let n := count_of data in
        let sx := total (map exact data) in
        let sxx := total (map (fun x => exact x * exact x)%Qc data) in
        let mss := (((n * sxx - sx * sx) / n) / (n - 1))%Qc in
        float_sqrt_of_frac (Qnum mss) (Zpos (Qden mss))
    end.

(** ** Rendering *)

Definition tab : string := String (ascii_of_nat 9) EmptyString.

Definition digits (z : Z) : string :=
  NilZero.string_of_uint (N.to_uint (Z.to_N z)).

Definition tenths (negative : bool) (t : Z) : string :=
  ((if negative then "-" else "")
   ++ digits (t / 10) ++ "." ++ digits (t mod 10))%string.

(** [f"{x:.1f}"] for a float: the decimal with one digit after the point
    nearest to its value, ties to even. *)
Definition format_float (f : pyfloat) : string :=
  match f with
  | Finite s u => tenths s (round_div (10 * u) one_unit)
  | Inf s => if s then "-inf" else "inf"
  | NaN => "nan"
  end.

(** [f"{x:.1f}"]: an [int] is converted to a float first. *)
Definition format_1f (x : pynum) : result string :=
  f <- to_float x ;; Ok (format_float f).

(** [f"{k:width}"] for a string: padded on the right with spaces. *)
Definition pad (width : nat) (k : string) : string :=
  (k ++ string_of_list_ascii (repeat " "%char (width - String.length k)))%string.

Record row : Type := Row {
  row_group : string;
  row_name : string;
  row_minimum : pynum;
  row_median : pynum;
  row_mean : pynum;
  row_std_dev : pyfloat;
  row_maximum : pynum;
  row_count : nat
}.

(** The f-string of line 64. *)
Definition render_row (r : row) : result string :=
  minimum <- format_1f (row_minimum r) ;;
  median <- format_1f (row_median r) ;;
  mean <- format_1f (row_mean r) ;;
  maximum <- format_1f (row_maximum r) ;;
  Ok (pad 15 (row_group r) ++ tab ++ pad 25 (row_name r) ++ tab
      ++ minimum ++ tab ++ median ++ tab ++ mean ++ tab
      ++ format_float (row_std_dev r) ++ tab ++ maximum ++ tab
      ++ digits (Z.of_nat (row_count r)))%string.

(** The header of line 54. *)
Definition header : string :=
  ("#group         " ++ tab ++ "method                   " ++ tab
   ++ "minimum" ++ tab ++ "median" ++ tab ++ "mean" ++ tab ++ "std_dev" ++ tab
   ++ "maximum" ++ tab ++ "count")%string.

(** ** Statistics reporter (lines 53-64) *)

(** Lines 57-63 for one series. *)
Definition stat_row (k1 k2 : string) (v2 : series) : result row :=
  v2 <- py_sorted v2 ;;
  minimum <- py_min v2 ;;
  maximum <- py_max v2 ;;
  mean <- statistics_mean v2 ;;
  median <- statistics_median v2 ;;
  std_dev <- statistics_stdev v2 ;;
  Ok (Row k1 k2 minimum median mean std_dev maximum (List.length v2)).

(** Lines 57-64: the line printed for one series. *)
Definition stat_line (k1 k2 : string) (v2 : series) : result string :=
  r <- stat_row k1 k2 v2 ;; render_row r.

(** The lines printed so far and the exception that ended the loop. *)
Fixpoint write_rows (es : list (string * string * series)) (out : list string)
  : list string * option error :=
  match es with
  | [] => (out, None)
  | (k1, k2, v2) :: es' =>
      match stat_line k1 k2 v2 with
      | Ok line => write_rows es' (out ++ [line])
      | Raise e => (out, Some e)
      end
  end.

Definition report (ret : metrics_map) : list string * option error :=
  write_rows (entries ret) [header].

(** [analyze_files]: the lines of [rust-code-analysis.tab], when the
    file was opened, and the exception raised, if any. *)
Definition analyze_files (fs : filesystem) (filenames : list string)
  : option (list string) * option error :=
  match aggregate fs filenames with
  | Raise e => (None, Some e)
  | Ok ret => let (out, e) := report ret in (Some out, e)
  end.

(** The main program after the external tool has run. *)
Definition main (fs : filesystem) (t : tree)
  : option (list string) * option error :=
  analyze_files fs (find_files "rust-code-analysis/src" "*.json" t).

(** ** Vocabulary of the properties *)

(** [metrics[k1][k2]], when [metrics[k1]] is a mapping that holds [k2]. *)
Definition source_leaf (metrics : dict pyval) (k1 k2 : string)
  : option pyval :=
  match dict_get k1 metrics with
  | Some (PDict items) => dict_get k2 items
  | _ => None
  end.

(** Every series of the mapping has an observation. *)
Definition nonempty_series (ret : metrics_map) : Prop :=
  Forall (fun kg => Forall (fun ks => snd ks <> []) (snd kg)) ret.

Definition is_empty_list (v : pyval) : bool :=
  match v with
  | PList [] => true
  | _ => false
  end.

(** No leaf of the source is an empty list. *)
Definition no_empty_leaf (metrics : dict pyval) : Prop :=
  Forall (fun kv =>
            Forall (fun ks => is_empty_list (snd ks) = false)
                   (items_of (snd kv))) metrics.

(** ** Sample inputs *)

Definition sample_ret : metrics_map :=
  [("nom", [("total", [PInt 1])])]%string.

Definition sample_metrics : dict pyval :=
  [("nom", PDict [("total", PInt 3); ("each", PList [PInt 1; PInt 2])]);
   ("name", PStr "main.rs");
   ("loc", PDict [("label", PStr "high")])]%string.

Definition scope (metrics : dict pyval) : pyval :=
  PDict [("metrics"%string, PDict metrics)].

Definition document (scopes : list pyval) : pyval :=
  PDict [("name", PStr "src/main.rs");
         ("spaces", PList [PDict [("spaces", PList scopes)]])]%string.

Definition file_a : pyval :=
  document
    [scope [("cyclomatic", PDict [("sum", PInt 1)]);
            ("nom", PDict [("total", PInt 2)])];
     scope [("cyclomatic", PDict [("sum", PInt 3)]);
            ("nom", PDict [("total", PInt 4)])]]%string.

Definition file_b : pyval :=
  document
    [scope [("nom", PDict [("total", PFloat (5 # 2))])]]%string.

Definition path_a : string := "rust-code-analysis/src/a.rs.json".
Definition path_b : string := "rust-code-analysis/src/b.rs.json".

Definition sample_fs : filesystem :=
  fun name =>
    if String.eqb name path_a then Some (Document file_a)
    else if String.eqb name path_b then Some (Document file_b)
    else None.
(** ** The statistics in the specification's words *)







(** [x <= y] on numbers that compare. *)
Definition num_le (x y : pynum) : Prop :=
  match place_of x, place_of y with
  | Some a, Some b => place_ltb b a = false
  | _, _ => False
  end.

(** A number that compares with the others: any but NaN. *)
Definition comparable (x : pynum) : Prop := place_of x <> None.

(** [x == y] *)
Definition same_value (x y : pynum) : Prop :=
  num_ltb x y = false /\ num_ltb y x = false.






(** Lines 57-64 for an entry of the aggregated mapping. *)
Definition printed (e : string * string * series) : result string :=
  stat_line (fst (fst e)) (snd (fst e)) (snd e).

(** The tail of [stat_row], after [sorted]. *)
Definition sorted_row (k1 k2 : string) (v2 : list pynum) : result row :=
  minimum <- py_min v2 ;;
  maximum <- py_max v2 ;;
  mean <- statistics_mean v2 ;;
  median <- statistics_median v2 ;;
  std_dev <- statistics_stdev v2 ;;
  Ok (Row k1 k2 minimum median mean std_dev maximum (List.length v2)).



Definition pyfloat_eqb (a b : pyfloat) : bool :=
  match a, b with
  | Finite s u, Finite s' u' => (Bool.eqb s s' && (u =? u')%Z)%bool
  | Inf s, Inf s' => Bool.eqb s s'
  | NaN, NaN => true
  | _, _ => false
  end.

Definition pynum_eqb (x y : pynum) : bool :=
  match x, y with
  | NInt a, NInt b => (a =? b)%Z
  | NFloat a, NFloat b => pyfloat_eqb a b
  | _, _ => false
  end.

(** Two numbers that compare equal without being the same number: an
    [int] and a [float] of one value, or [0.0] and [-0.0]. *)
Definition tied (x y : pynum) : bool :=
  (negb (num_ltb x y) && negb (num_ltb y x) && negb (pynum_eqb x y))%bool.

Definition free_of_ties (s : series) : bool :=
  match numbers s with
  | Some xs => forallb (fun x => forallb (fun y => negb (tied x y)) xs) xs
  | None => true
  end.

(** ** The aggregate of a run as a fold over the per-file results *)

Definition data_of (fs : filesystem) (f : string) : metrics_map :=
  match analyze_file fs f with
  | Ok d => d
  | Raise _ => []
  end.

Definition merge_all (ds : list metrics_map) (ret : metrics_map)
  : metrics_map :=
  fold_left (fun r d => merge r (as_source d)) ds ret.

Definition is_some {A : Type} (o : option A) : bool :=
  match o with
  | Some _ => true
  | None => false
  end.

(** Some result holds the pair; the observations of all results. *)
Definition present (k1 k2 : string) (ds : list metrics_map) : bool :=
  existsb (fun d => is_some (lookup2 d k1 k2)) ds.

Definition gathered (k1 k2 : string) (ds : list metrics_map) : series :=
  flat_map (fun d => or_empty (lookup2 d k1 k2)) ds.

(** What the printed line of an entry depends on: its pair and the
    sorted numbers of its series. *)
Definition canon (e : string * string * series)
  : string * string * option (list pynum) :=
  (fst e, option_map sort_numbers (numbers (snd e))).

Definition canon_line (c : string * string * option (list pynum))
  : result string :=
  match snd c with
  | Some sorted => r <- sorted_row (fst (fst c)) (snd (fst c)) sorted ;; render_row r
  | None => Raise TypeError
  end.

(** The line of an entry that is printed. *)
Definition line_of (e : string * string * series) : string :=
  match printed e with
  | Ok line => line
  | Raise _ => ""
  end.

Definition is_ok {A : Type} (r : result A) : bool :=
  match r with
  | Ok _ => true
  | Raise _ => false
  end.

Definition canon_text (c : string * string * option (list pynum)) : string :=
  match canon_line c with
  | Ok line => line
  | Raise _ => ""
  end.

(** The series of the specification's example. *)
Definition one_to_five : series := [PInt 1; PInt 2; PInt 3; PInt 4; PInt 5].

(** A file whose only metric is an empty list. *)
Definition empty_leaf_fs : filesystem :=
  fun _ =>
    Some (Document (document [scope [("nom", PDict [("total", PList [])])]])).


(** The same directory as [os.walk] may list it on two runs. *)
Definition listing_ab : tree := Dir ["a.rs.json"; "b.rs.json"; "notes.txt"] [].
Definition listing_ba : tree := Dir ["b.rs.json"; "notes.txt"; "a.rs.json"] [].

(** Two series hold the same observations, or are both absent. *)
Definition same_observations (o1 o2 : option series) : Prop :=
  match o1, o2 with
  | Some s1, Some s2 => Permutation s1 s2
  | None, None => True
  | _, _ => False
  end.

(** Two listings of one directory tree: the same files and
    sub-directories at every level, in any order. *)
Inductive same_dir : tree -> tree -> Prop :=
| same_dir_refl t : same_dir t t
| same_dir_trans t1 t2 t3 : same_dir t1 t2 -> same_dir t2 t3 -> same_dir t1 t3
| same_dir_files files files' dirs :
    Permutation files files' -> same_dir (Dir files dirs) (Dir files' dirs)
| same_dir_dirs files dirs dirs' :
    Permutation dirs dirs' -> same_dir (Dir files dirs) (Dir files dirs')
| same_dir_sub files name sub sub' before after :
    same_dir sub sub' ->
    same_dir (Dir files (before ++ (name, sub) :: after))
             (Dir files (before ++ (name, sub') :: after)).

(** ** The expected structure of a document *)

(** The [metrics] mappings of a document, in document order: those of
    the scopes found two levels down. *)
Definition inner_metrics (s2 : pyval) : list (dict pyval) :=
  match s2 with
  | PDict inner =>
      match dict_get "metrics" inner with
      | Some (PDict metrics) => [metrics]
      | _ => []
      end
  | _ => []
  end.

Definition outer_metrics (s1 : pyval) : list (dict pyval) :=
  match s1 with
  | PDict outer =>
      match dict_get "spaces" outer with
      | Some (PList inners) => flat_map inner_metrics inners
      | _ => []
      end
  | _ => []
  end.

Definition doc_metrics (d : pyval) : list (dict pyval) :=
  match d with
  | PDict top =>
      match dict_get "spaces" top with
      | Some (PList outers) => flat_map outer_metrics outers
      | _ => []
      end
  | _ => []
  end.

(** A scope is an object whose "spaces", if any, is a list of objects. *)
Definition outer_shaped (s1 : pyval) : bool :=
  match s1 with
  | PDict outer =>
      match dict_get "spaces" outer with
      | None => true
      | Some (PList inners) => forallb is_dict inners
      | Some _ => false
      end
  | _ => false
  end.

(** A document is an object whose "spaces", if any, is a list of scopes. *)
Definition well_shaped (d : pyval) : bool :=
  match d with
  | PDict top =>
      match dict_get "spaces" top with
      | None => true
      | Some (PList outers) => forallb outer_shaped outers
      | Some _ => false
      end
  | _ => false
  end.

(** [None], a boolean or a number: neither a container nor a string. *)
Definition scalar (v : pyval) : bool :=
  match v with
  | PNone | PBool _ | PInt _ | PFloat _ => true
  | _ => false
  end.

(** A document stripped of everything but the fields the extractor
    reads: "spaces" at the top and in first-level scopes, "metrics" in
    second-level scopes. *)
Definition only_key (key : string) (keep : pyval -> pyval) (v : pyval)
  : pyval :=
  match v with
  | PDict items =>
      match dict_get key items with
      | Some x => PDict [(key, keep x)]
      | None => PDict []
      end
  | _ => v
  end.

Definition each (keep : pyval -> pyval) (v : pyval) : pyval :=
  match v with
  | PList xs => PList (map keep xs)
  | _ => v
  end.

Definition prune_inner (s2 : pyval) : pyval := only_key "metrics" (fun m => m) s2.

Definition prune_outer (s1 : pyval) : pyval :=
  only_key "spaces" (each prune_inner) s1.

Definition prune_doc (d : pyval) : pyval :=
  only_key "spaces" (each prune_outer) d.

(** The group keys a merge adds to a destination, in the order of the
    source: those of its mapping-valued entries the destination lacks. *)
Definition new_groups (ret : metrics_map) (metrics : dict pyval)
  : list string :=
  filter (fun k => negb (dict_mem k ret))
         (keys (filter (fun kv => is_dict (snd kv)) metrics)).

(** ** Preparing the output directory: [create_json_files]

    The working directory is a list of named entries, regular files and
    folders, and a path is the list of its components.  Permissions and
    symbolic links are outside the model; a new entry is listed last. *)

Inductive node : Type :=
| RegFile (content : file)
| Folder (entries : list (string * node)).

(** [FileNotFoundError], [FileExistsError], [NotADirectoryError] *)
Inductive os_error : Type :=
| ENOENT
| EEXIST
| ENOTDIR.

Inductive os_result (A : Type) : Type :=
| Done (a : A)
| Fails (e : os_error).

Arguments Done {A} a.
Arguments Fails {A} e.

Definition dict_remove {V : Type} (k : string) (d : dict V) : dict V :=
  filter (fun kv => negb (String.eqb k (fst kv))) d.

Fixpoint lookup (fs : dict node) (path : list string) : option node :=
  match path with
  | [] => None
  | name :: path' =>
      match path' with
      | [] => dict_get name fs
      | _ :: _ =>
          match dict_get name fs with
          | Some (Folder es) => lookup es path'
          | _ => None
          end
      end
  end.

(** [os.path.exists] *)
Definition path_exists (fs : dict node) (path : list string) : bool :=
  match lookup fs path with
  | Some _ => true
  | None => false
  end.

(** [os.mkdir] *)
Fixpoint mkdir (fs : dict node) (path : list string)
  : os_result (dict node) :=
  match path with
  | [] => Fails ENOENT
  | name :: path' =>
      match path' with
      | [] =>
          if dict_mem name fs then Fails EEXIST
          else Done (fs ++ [(name, Folder [])])
      | _ :: _ =>
          match dict_get name fs with
          | None => Fails ENOENT
          | Some (RegFile _) => Fails ENOTDIR
          | Some (Folder es) =>
              match mkdir es path' with
              | Done es' => Done (dict_set name (Folder es') fs)
              | Fails e => Fails e
              end
          end
      end
  end.

(** [os.makedirs(name)], by recursion on the path read from its end:
    [head] is the path without its last component. *)
Fixpoint makedirs_rev (fs : dict node) (rpath : list string)
  : os_result (dict node) :=
  match rpath with
  | [] => mkdir fs []
  | _ :: rhead =>
      let made :=
        match rhead with
        | [] => Done fs
        | _ :: _ =>
            if path_exists fs (rev rhead) then Done fs
            else
              match makedirs_rev fs rhead with
              | Fails EEXIST => Done fs
              | r => r
              end
        end in
      match made with
      | Done fs' => mkdir fs' (rev rpath)
      | Fails e => Fails e
      end
  end.

Definition makedirs (fs : dict node) (path : list string)
  : os_result (dict node) :=
  makedirs_rev fs (rev path).

(** [shutil.rmtree] *)
Fixpoint rmtree (fs : dict node) (path : list string)
  : os_result (dict node) :=
  match path with
  | [] => Fails ENOENT
  | name :: path' =>
      match path' with
      | [] =>
          match dict_get name fs with
          | None => Fails ENOENT
          | Some (RegFile _) => Fails ENOTDIR
          | Some (Folder _) => Done (dict_remove name fs)
          end
      | _ :: _ =>
          match dict_get name fs with
          | None => Fails ENOENT
          | Some (RegFile _) => Fails ENOTDIR
          | Some (Folder es) =>
              match rmtree es path' with
              | Done es' => Done (dict_set name (Folder es') fs)
              | Fails e => Fails e
              end
          end
      end
  end.

(** Lines 68-72 of [create_json_files]. *)
Definition clear_directory (root_path : list string) (fs : dict node)
  : os_result (dict node) :=
  match (if negb (path_exists fs root_path) then makedirs fs root_path
         else Done fs) with
  | Done fs' => rmtree fs' root_path
  | Fails e => Fails e
  end.

(** [create_json_files]; [tool] is the run of the external command by
    [subprocess.call], whose exit status is not looked at. *)
Definition create_json_files (tool : dict node -> os_result (dict node))
  (root_path : list string) (fs : dict node) : os_result (dict node) :=
  match clear_directory root_path fs with
  | Done fs' => tool fs'
  | Fails e => Fails e
  end.

(** ** Reading a report line back *)

Definition tab_char : ascii := ascii_of_nat 9.

(** The fields of a line, as [line.split(sep)] gives them. *)
Fixpoint split_on (sep : ascii) (s : string) : list string :=
  match s with
  | EmptyString => [EmptyString]
  | String c s' =>
      if Ascii.eqb c sep then EmptyString :: split_on sep s'
      else
        match split_on sep s' with
        | [] => [String c EmptyString]
        | field :: fields => String c field :: fields
        end
  end.

Fixpoint free_of (sep : ascii) (s : string) : bool :=
  match s with
  | EmptyString => true
  | String c s' => (negb (Ascii.eqb c sep) && free_of sep s')%bool
  end.


(** The entries before the first one the reporter cannot print. *)
Fixpoint printable_prefix (es : list (string * string * series))
  : list (string * string * series) :=
  match es with
  | [] => []
  | e :: es' =>
      match printed e with
      | Ok _ => e :: printable_prefix es'
      | Raise _ => []
      end
  end.

(** The exception of the first entry the reporter cannot print. *)
Fixpoint first_failure (es : list (string * string * series)) : option error :=
  match es with
  | [] => None
  | e :: es' =>
      match printed e with
      | Ok _ => first_failure es'
      | Raise err => Some err
      end
  end.



(** * Properties *)

(** ** Dictionaries *)

Section DictFacts.
Context {V : Type}.
Implicit Types (d : dict V) (k : string) (v : V).

Lemma dict_get_set_same k v d : dict_get k (dict_set k v d) = Some v.
Proof.
  induction d as [|[k' v'] d IH]; simpl.
  - now rewrite String.eqb_refl.
  - destruct (String.eqb k k') eqn:E; simpl; rewrite E; auto.
Qed.

Lemma dict_get_set_other k k' v d :
  k <> k' -> dict_get k (dict_set k' v d) = dict_get k d.
Proof.
  intros Hne. apply String.eqb_neq in Hne.
  induction d as [|[k0 v0] d IH]; simpl.
  - now rewrite Hne.
  - destruct (String.eqb k' k0) eqn:E; simpl.
    + apply String.eqb_eq in E. subst k0. now rewrite Hne.
    + now rewrite IH.
Qed.

Lemma dict_set_set k v v' d :
  dict_set k v (dict_set k v' d) = dict_set k v d.
Proof.
  induction d as [|[k0 v0] d IH]; simpl.
  - now rewrite String.eqb_refl.
  - destruct (String.eqb k k0) eqn:E; simpl; rewrite E; congruence.
Qed.

Lemma dict_set_id k v d : dict_get k d = Some v -> dict_set k v d = d.
Proof.
  induction d as [|[k0 v0] d IH]; simpl; [discriminate|].
  destruct (String.eqb k k0) eqn:E; intros H.
  - congruence.
  - now rewrite IH.
Qed.

Lemma dict_get_None k d : dict_get k d = None <-> ~ In k (keys d).
Proof.
  induction d as [|[k0 v0] d IH]; simpl; [tauto|].
  destruct (String.eqb k k0) eqn:E.
  - apply String.eqb_eq in E. subst. split; [discriminate|tauto].
  - apply String.eqb_neq in E. rewrite IH. intuition congruence.
Qed.

Lemma dict_get_In k v d : dict_get k d = Some v -> In (k, v) d.
Proof.
  induction d as [|[k0 v0] d IH]; simpl; [discriminate|].
  destruct (String.eqb k k0) eqn:E; intros H.
  - apply String.eqb_eq in E. left. congruence.
  - right. auto.
Qed.

Lemma In_dict_get k v d : dict_wf d -> In (k, v) d -> dict_get k d = Some v.
Proof.
  unfold dict_wf. induction d as [|[k0 v0] d IH]; simpl; [tauto|].
  intros Hnd [H|H].
  - inversion H; subst. now rewrite String.eqb_refl.
  - inversion Hnd as [|? ? Hnotin Hnd']; subst.
    destruct (String.eqb k k0) eqn:E.
    + apply String.eqb_eq in E. subst. exfalso. apply Hnotin.
      change k0 with (fst (k0, v)). now apply in_map.
    + auto.
Qed.

Lemma dict_mem_true k d : dict_mem k d = true <-> In k (keys d).
Proof.
  unfold dict_mem. destruct (dict_get k d) eqn:E.
  - split; [intros _|reflexivity].
    apply dict_get_In in E. change k with (fst (k, v)). now apply in_map.
  - apply dict_get_None in E. split; [discriminate|tauto].
Qed.

Lemma keys_set k v d :
  keys (dict_set k v d) = if dict_mem k d then keys d else keys d ++ [k].
Proof.
  unfold dict_mem. induction d as [|[k0 v0] d IH]; simpl; [reflexivity|].
  destruct (String.eqb k k0) eqn:E; simpl; [reflexivity|].
  rewrite IH. now destruct (dict_get k d).
Qed.

Lemma dict_wf_set k v d : dict_wf d -> dict_wf (dict_set k v d).
Proof.
  unfold dict_wf. intros H. rewrite keys_set.
  destruct (dict_mem k d) eqn:E; [assumption|].
  apply NoDup_app; auto.
  - repeat constructor. simpl. tauto.
  - intros x Hx [<-|[]].
    apply dict_mem_true in Hx. congruence.
Qed.

Lemma Forall_dict_set (P : V -> Prop) k v d :
  Forall (fun kv => P (snd kv)) d -> P v ->
  Forall (fun kv => P (snd kv)) (dict_set k v d).
Proof.
  intros H Hv. induction H as [|[k0 v0] d Hx H IH]; simpl.
  - now repeat constructor.
  - destruct (String.eqb k k0); constructor; auto.
Qed.

Lemma Forall_dict_get (P : V -> Prop) k v d :
  Forall (fun kv => P (snd kv)) d -> dict_get k d = Some v -> P v.
Proof.
  intros H Hg. apply dict_get_In in Hg.
  rewrite Forall_forall in H. exact (H _ Hg).
Qed.

Lemma select_get k d :
  dict_wf d ->
  select k d = match dict_get k d with Some v => [v] | None => [] end.
Proof.
  unfold select, dict_wf. induction d as [|[k0 v0] d IH]; simpl; [reflexivity|].
  intros Hnd. inversion Hnd as [|? ? Hnotin Hnd']; subst.
  destruct (String.eqb k k0) eqn:E; simpl.
  - apply String.eqb_eq in E. subst. f_equal.
    rewrite (IH Hnd'). apply dict_get_None in Hnotin. now rewrite Hnotin.
  - auto.
Qed.

Lemma select_nil k d : dict_mem k d = false -> select k d = [].
Proof.
  unfold select, dict_mem. induction d as [|[k0 v0] d IH]; simpl; [reflexivity|].
  destruct (String.eqb k k0) eqn:E; [discriminate|]. auto.
Qed.

Lemma dict_mem_app k d d' :
  dict_mem k (d ++ d') = (dict_mem k d || dict_mem k d')%bool.
Proof.
  unfold dict_mem. induction d as [|[k0 v0] d IH]; simpl; [reflexivity|].
  destruct (String.eqb k k0); auto.
Qed.

Lemma select_app k d d' : select k (d ++ d') = select k d ++ select k d'.
Proof.
  unfold select. now rewrite filter_app, map_app.
Qed.
End DictFacts.

(** ** [append_metrics] never raises and computes [merge] *)

Lemma for_each_ok {A S : Type} (body : S -> A -> result S) (f : S -> A -> S)
  (P : S -> Prop) xs s :
  (forall s x, P s -> body s x = Ok (f s x) /\ P (f s x)) ->
  P s -> for_each body xs s = Ok (fold_left f xs s) /\ P (fold_left f xs s).
Proof.
  intros Hbody. revert s. induction xs as [|x xs IH]; simpl; intros s Hs.
  - auto.
  - destruct (Hbody s x Hs) as [-> Hs']. simpl. auto.
Qed.

Lemma append_leaf_merge k1 ret g kv :
  dict_get k1 ret = Some g ->
  append_leaf k1 ret kv = Ok (dict_set k1 (merge_leaf g kv) ret).
Proof.
  intros Hg. destruct kv as [k2 v2].
  unfold append_leaf, merge_leaf, getitem2, setitem2, subscript; simpl.
  rewrite Hg; simpl. unfold dict_mem.
  destruct (dict_get k2 g) as [old|] eqn:Hold; simpl.
  - destruct v2; simpl; rewrite Hg; simpl; rewrite Hold; reflexivity.
  - destruct v2; simpl; rewrite !dict_get_set_same; simpl;
      rewrite !dict_get_set_same; simpl; now rewrite !dict_set_set.
Qed.

Lemma append_leaves_merge k1 items ret g :
  dict_get k1 ret = Some g ->
  for_each (append_leaf k1) items ret
  = Ok (dict_set k1 (fold_left merge_leaf items g) ret).
Proof.
  revert ret g. induction items as [|kv items IH]; simpl; intros ret g Hg.
  - now rewrite dict_set_id.
  - rewrite append_leaf_merge with (g := g) by assumption; simpl.
    rewrite IH with (g := merge_leaf g kv) by apply dict_get_set_same.
    now rewrite dict_set_set.
Qed.

Lemma append_group_merge ret kv : append_group ret kv = Ok (merge_group ret kv).
Proof.
  destruct kv as [k1 v1]. unfold append_group, merge_group; simpl.
  destruct v1; try reflexivity.
  unfold dict_mem. destruct (dict_get k1 ret) as [g|] eqn:Hg; simpl.
  - now apply append_leaves_merge.
  - rewrite append_leaves_merge with (g := []) by apply dict_get_set_same.
    now rewrite dict_set_set.
Qed.

Lemma append_metrics_merge ret metrics :
  append_metrics ret metrics = Ok (merge ret metrics).
Proof.
  unfold append_metrics, merge.
  apply (for_each_ok append_group merge_group (fun _ => True)); auto.
  intros s x _. split; [apply append_group_merge|exact I].
Qed.

(** ** What a merge stores for a pair *)

Lemma merge_leaves_get k2 items g :
  dict_get k2 (fold_left merge_leaf items g)
  = if dict_mem k2 items
    then Some (or_empty (dict_get k2 g) ++ flat_map leaf_values (select k2 items))
    else dict_get k2 g.
Proof.
  revert g. induction items as [|[k v] items IH]; intros g; [reflexivity|].
  simpl fold_left. rewrite IH. unfold merge_leaf; simpl fst; simpl snd.
  unfold dict_mem at 2, select. simpl.
  destruct (String.eqb k2 k) eqn:E.
  - apply String.eqb_eq in E. subst k. rewrite dict_get_set_same. simpl.
    destruct (dict_mem k2 items) eqn:M.
    + now rewrite <- app_assoc.
    + fold (select k2 items). rewrite (select_nil _ _ M). simpl.
      now rewrite app_nil_r.
  - apply String.eqb_neq in E. rewrite dict_get_set_other by assumption.
    reflexivity.
Qed.

Lemma lookup2_merge_items ret metrics k1 k2 :
  lookup2 (merge ret metrics) k1 k2
  = dict_get k2 (fold_left merge_leaf (group_items k1 metrics)
                   (or_empty (dict_get k1 ret))).
Proof.
  unfold merge. revert ret. induction metrics as [|[k v] metrics IH]; intros ret.
  - simpl. unfold lookup2. now destruct (dict_get k1 ret).
  - simpl fold_left. rewrite IH. unfold merge_group, group_items, select.
    simpl fst; simpl snd. simpl filter.
    destruct (String.eqb k1 k) eqn:E.
    + apply String.eqb_eq in E. subst k.
      destruct v; simpl; try reflexivity.
      rewrite dict_get_set_same. simpl. now rewrite fold_left_app.
    + apply String.eqb_neq in E.
      destruct v; simpl; try reflexivity.
      rewrite dict_get_set_other by assumption. reflexivity.
Qed.

Lemma lookup2_or_empty ret k1 k2 :
  dict_get k2 (or_empty (dict_get k1 ret)) = lookup2 ret k1 k2.
Proof.
  unfold lookup2, group_map, dict. destruct (dict_get k1 ret); reflexivity.
Qed.

Lemma lookup2_merge ret metrics k1 k2 :
  lookup2 (merge ret metrics) k1 k2
  = if occurs k1 k2 metrics
    then Some (or_empty (lookup2 ret k1 k2) ++ contrib k1 k2 metrics)
    else lookup2 ret k1 k2.
Proof.
  rewrite lookup2_merge_items, merge_leaves_get, lookup2_or_empty.
  reflexivity.
Qed.

(** ** Well-formedness is preserved *)

Lemma map_wf_nil : map_wf [].
Proof. split; constructor. Qed.

Lemma merge_leaves_wf items g :
  dict_wf g -> dict_wf (fold_left merge_leaf items g).
Proof.
  revert g. induction items as [|kv items IH]; simpl; intros g Hg; auto.
  apply IH. now apply dict_wf_set.
Qed.

Lemma group_wf ret k : map_wf ret -> dict_wf (or_empty (dict_get k ret)).
Proof.
  intros [_ H]. destruct (dict_get k ret) as [g|] eqn:E; simpl.
  - exact (@Forall_dict_get _ (fun g => dict_wf g) _ _ _ H E).
  - constructor.
Qed.

Lemma merge_group_wf ret kv : map_wf ret -> map_wf (merge_group ret kv).
Proof.
  intros Hwf. unfold merge_group. destruct (snd kv); auto.
  split.
  - apply dict_wf_set, Hwf.
  - apply (@Forall_dict_set _ (fun g => dict_wf g)); [apply Hwf|].
    now apply merge_leaves_wf, group_wf.
Qed.

Lemma merge_wf ret metrics : map_wf ret -> map_wf (merge ret metrics).
Proof.
  unfold merge. revert ret.
  induction metrics as [|kv metrics IH]; simpl; intros ret H; auto.
  apply IH. now apply merge_group_wf.
Qed.

(** ** Sources with distinct keys *)

Lemma group_items_wf metrics k1 :
  dict_wf metrics ->
  group_items k1 metrics = or_empty (option_map items_of (dict_get k1 metrics)).
Proof.
  intros H. unfold group_items. rewrite select_get by assumption.
  destruct (dict_get k1 metrics); simpl; [apply app_nil_r|reflexivity].
Qed.

Lemma occurs_source_leaf metrics k1 k2 :
  source_wf metrics ->
  occurs k1 k2 metrics
  = match source_leaf metrics k1 k2 with Some _ => true | None => false end.
Proof.
  intros [H _]. unfold occurs, source_leaf. rewrite group_items_wf by assumption.
  destruct (dict_get k1 metrics) as [[]|]; reflexivity.
Qed.

Lemma contrib_source_leaf metrics k1 k2 :
  source_wf metrics ->
  contrib k1 k2 metrics
  = or_empty (option_map leaf_values (source_leaf metrics k1 k2)).
Proof.
  intros [H H']. unfold contrib, source_leaf.
  rewrite group_items_wf by assumption.
  destruct (dict_get k1 metrics) as [v|] eqn:E; [|reflexivity].
  pose proof (@Forall_dict_get _ (fun v => dict_wf (items_of v)) _ _ _ H' E) as Hv.
  simpl in *. rewrite select_get by assumption.
  destruct v; try reflexivity. simpl.
  destruct (dict_get k2 items); simpl; [apply app_nil_r|reflexivity].
Qed.

Lemma lookup2_merge_wf ret metrics k1 k2 :
  source_wf metrics ->
  lookup2 (merge ret metrics) k1 k2
  = match source_leaf metrics k1 k2 with
    | Some v => Some (or_empty (lookup2 ret k1 k2) ++ leaf_values v)
    | None => lookup2 ret k1 k2
    end.
Proof.
  intros H. rewrite lookup2_merge, occurs_source_leaf, contrib_source_leaf
    by assumption.
  destruct (source_leaf metrics k1 k2); reflexivity.
Qed.

(** ** Group keys *)

Lemma dict_mem_set {V : Type} k k' (v : V) d :
  dict_mem k (dict_set k' v d) = (String.eqb k k' || dict_mem k d)%bool.
Proof.
  unfold dict_mem. destruct (String.eqb k k') eqn:E.
  - apply String.eqb_eq in E. subst. now rewrite dict_get_set_same.
  - apply String.eqb_neq in E. now rewrite dict_get_set_other.
Qed.

Lemma dict_mem_merge ret metrics k :
  dict_mem k (merge ret metrics)
  = (dict_mem k ret
     || existsb (fun kv => String.eqb k (fst kv) && is_dict (snd kv)) metrics)%bool.
Proof.
  unfold merge. revert ret.
  induction metrics as [|[k' v] metrics IH]; simpl; intros ret.
  - now rewrite orb_false_r.
  - rewrite IH. unfold merge_group; simpl.
    destruct v; simpl; rewrite ?andb_false_r; simpl; try reflexivity.
    rewrite dict_mem_set, andb_true_r.
    destruct (String.eqb k k'), (dict_mem k ret); reflexivity.
Qed.

Lemma group_created ret metrics k1 items :
  dict_get k1 metrics = Some (PDict items) ->
  dict_mem k1 (merge ret metrics) = true.
Proof.
  intros H. rewrite dict_mem_merge. apply orb_true_iff. right.
  apply existsb_exists. exists (k1, PDict items). split.
  - now apply dict_get_In.
  - simpl. now rewrite String.eqb_refl.
Qed.

Lemma merge_filter_dict ret metrics :
  merge ret (filter (fun kv => is_dict (snd kv)) metrics) = merge ret metrics.
Proof.
  unfold merge. revert ret.
  induction metrics as [|[k v] metrics IH]; simpl; intros ret; auto.
  destruct v; simpl; auto.
Qed.

(** ** Per-file results as sources *)

Lemma dict_get_map {V W : Type} (f : V -> W) k (d : dict V) :
  dict_get k (map (fun kv => (fst kv, f (snd kv))) d)
  = option_map f (dict_get k d).
Proof.
  induction d as [|[k0 v0] d IH]; simpl; auto.
  destruct (String.eqb k k0); auto.
Qed.

Lemma keys_map {V W : Type} (f : V -> W) (d : dict V) :
  keys (map (fun kv => (fst kv, f (snd kv))) d) = keys d.
Proof.
  unfold keys. rewrite map_map. reflexivity.
Qed.

Lemma source_leaf_as_source d k1 k2 :
  source_leaf (as_source d) k1 k2 = option_map PList (lookup2 d k1 k2).
Proof.
  unfold source_leaf, as_source, lookup2.
  rewrite (dict_get_map
             (fun g : group_map =>
                PDict (map (fun ks => (fst ks, PList (snd ks))) g))).
  destruct (dict_get k1 d) as [g|]; simpl; [|reflexivity].
  apply (dict_get_map PList).
Qed.

Lemma source_wf_as_source d : map_wf d -> source_wf (as_source d).
Proof.
  intros [H H']. unfold as_source. split.
  - unfold dict_wf.
    rewrite (keys_map
               (fun g : group_map =>
                  PDict (map (fun ks => (fst ks, PList (snd ks))) g))).
    exact H.
  - apply Forall_map. simpl. eapply Forall_impl; [|exact H'].
    intros [k g] Hg. simpl in *. unfold dict_wf.
    now rewrite (keys_map PList).
Qed.

(** ** Non-empty series *)

Lemma leaf_values_nonempty v : is_empty_list v = false -> leaf_values v <> [].
Proof.
  destruct v as [| | | | |xs|]; simpl; try discriminate.
  destruct xs; discriminate.
Qed.

Lemma merge_leaves_nonempty items g :
  Forall (fun ks => is_empty_list (snd ks) = false) items ->
  Forall (fun ks : string * series => snd ks <> []) g ->
  Forall (fun ks : string * series => snd ks <> []) (fold_left merge_leaf items g).
Proof.
  intros H. revert g. induction H as [|kv items Hkv H IH]; simpl; intros g Hg.
  - assumption.
  - apply IH. unfold merge_leaf.
    apply (@Forall_dict_set _ (fun s : series => s <> [])); [assumption|].
    intros E. apply app_eq_nil in E. destruct E as [_ E].
    now apply leaf_values_nonempty in E.
Qed.

Lemma merge_nonempty ret metrics :
  no_empty_leaf metrics -> nonempty_series ret ->
  nonempty_series (merge ret metrics).
Proof.
  unfold merge, no_empty_leaf, nonempty_series. intros H. revert ret.
  induction H as [|[k v] metrics Hkv H IH]; simpl; intros ret Hret.
  - assumption.
  - apply IH. unfold merge_group; simpl. destruct v; try assumption.
    apply (@Forall_dict_set _
             (fun g : group_map => Forall (fun ks => snd ks <> []) g));
      [assumption|].
    apply merge_leaves_nonempty; [exact Hkv|].
    destruct (dict_get k ret) as [g|] eqn:E; simpl; [|constructor].
    exact (@Forall_dict_get _
             (fun g : group_map => Forall (fun ks => snd ks <> []) g)
             _ _ _ Hret E).
Qed.

(** ** Concrete inputs used below *)

Ltac distinct_keys :=
  unfold dict_wf, keys; simpl;
  repeat (constructor; [simpl; intuition discriminate|]); constructor.

Ltac wf_source :=
  split; [distinct_keys|repeat (constructor; [distinct_keys|])]; constructor.

(** C2. For every destination and every source mapping, [append_metrics]
    raises nothing; it creates the group key of every mapping-valued
    source entry; for every name in such an entry the new series is the
    old one (empty if the key was absent) followed by all elements of a
    list value, or by the value itself when it is not a list; and the
    top-level entries whose value is not a mapping change nothing. *)
Theorem append_metrics_spec (ret : metrics_map) (metrics : dict pyval)
  (Hwf : source_wf metrics) :
  exists ret',
    append_metrics ret metrics = Ok ret'
    /\ (forall k1 items,
          dict_get k1 metrics = Some (PDict items) -> dict_mem k1 ret' = true)
    /\ (forall k1 items k2 v2,
          dict_get k1 metrics = Some (PDict items) ->
          dict_get k2 items = Some v2 ->
          lookup2 ret' k1 k2
          = Some (or_empty (lookup2 ret k1 k2)
                  ++ match v2 with PList xs => xs | _ => [v2] end))
    /\ append_metrics ret (filter (fun kv => is_dict (snd kv)) metrics)
       = Ok ret'.
Proof.
  exists (merge ret metrics). split; [apply append_metrics_merge|].
  split; [|split].
  - intros k1 items H. now apply group_created with (items := items).
  - intros k1 items k2 v2 H1 H2.
    rewrite lookup2_merge_wf by assumption.
    unfold source_leaf. rewrite H1, H2. reflexivity.
  - rewrite append_metrics_merge. f_equal. apply merge_filter_dict.
Qed.

Lemma append_metrics_spec_witness :
  source_wf sample_metrics
  /\ exists ret',
       append_metrics sample_ret sample_metrics = Ok ret'
       /\ lookup2 ret' "nom" "total" = Some [PInt 1; PInt 3]
       /\ lookup2 ret' "nom" "each" = Some [PInt 1; PInt 2]
       /\ dict_mem "name" ret' = false.
Proof.
  assert (Hwf : source_wf sample_metrics) by (unfold sample_metrics; wf_source).
  split; [exact Hwf|].
  destruct (append_metrics_spec sample_ret Hwf) as (ret' & Hret & _ & Hleaf & _).
  exists ret'. split; [exact Hret|].
  split; [|split].
  - exact (Hleaf "nom"%string _ "total"%string _ eq_refl eq_refl).
  - exact (Hleaf "nom"%string _ "each"%string _ eq_refl eq_refl).
  - vm_compute in Hret. inversion Hret. reflexivity.
Defined.

(** C9. Merging is append-only and preserves the frame: a series of the
    destination whose pair has no value in the source is unchanged, and a
    series whose pair has one is the old series followed by the source's
    values. *)
Theorem append_metrics_frame (ret : metrics_map) (metrics : dict pyval)
  (Hwf : source_wf metrics) :
  exists ret',
    append_metrics ret metrics = Ok ret'
    /\ forall k1 k2 old,
         lookup2 ret k1 k2 = Some old ->
         match source_leaf metrics k1 k2 with
         | None => lookup2 ret' k1 k2 = Some old
         | Some v =>
             lookup2 ret' k1 k2
             = Some (old ++ match v with PList xs => xs | _ => [v] end)
         end.
Proof.
  exists (merge ret metrics). split; [apply append_metrics_merge|].
  intros k1 k2 old Hold. rewrite lookup2_merge_wf by assumption.
  rewrite Hold. destruct (source_leaf metrics k1 k2); reflexivity.
Qed.

Lemma append_metrics_frame_witness :
  source_wf sample_metrics
  /\ exists ret',
       append_metrics (sample_ret ++ [("loc", [("sloc", [PInt 9])])]%string)
         sample_metrics = Ok ret'
       /\ lookup2 ret' "nom" "total" = Some [PInt 1; PInt 3]
       /\ lookup2 ret' "loc" "sloc" = Some [PInt 9].
Proof.
  assert (Hwf : source_wf sample_metrics) by (unfold sample_metrics; wf_source).
  split; [exact Hwf|].
  destruct (append_metrics_frame
              (sample_ret ++ [("loc", [("sloc", [PInt 9])])]%string) Hwf)
    as (ret' & Hret & Hframe).
  exists ret'. split; [exact Hret|]. split.
  - exact (Hframe "nom"%string "total"%string _ eq_refl).
  - exact (Hframe "loc"%string "sloc"%string _ eq_refl).
Defined.

(** C10. Leaf values are not checked to be numbers: a leaf that is not a
    list, a string or a nested mapping included, is appended as it is to
    the series of its pair, and the merge raises nothing; the extractor
    hands the [metrics] mapping of a scope to the merge unchanged. *)
Theorem leaf_appended_verbatim (ret : metrics_map) (metrics : dict pyval)
  (k1 k2 : string) (items : dict pyval) (v2 : pyval)
  (Hwf : source_wf metrics)
  (Hgroup : dict_get k1 metrics = Some (PDict items))
  (Hleaf : dict_get k2 items = Some v2)
  (Hnotlist : forall xs, v2 <> PList xs) :
  (exists ret',
     append_metrics ret metrics = Ok ret'
     /\ lookup2 ret' k1 k2 = Some (or_empty (lookup2 ret k1 k2) ++ [v2]))
  /\ (forall s2 : dict pyval,
        dict_get "metrics" s2 = Some (PDict metrics) ->
        analyze_inner ret (PDict s2) = append_metrics ret metrics).
Proof.
  split.
  - exists (merge ret metrics). split; [apply append_metrics_merge|].
    rewrite lookup2_merge_wf by assumption.
    unfold source_leaf. rewrite Hgroup, Hleaf.
    destruct v2; try reflexivity. now destruct (Hnotlist xs).
  - intros s2 H. unfold analyze_inner, contains, getitem, subscript, dict_mem.
    rewrite H. reflexivity.
Qed.

Lemma leaf_appended_verbatim_witness :
  exists ret',
    append_metrics sample_ret sample_metrics = Ok ret'
    /\ lookup2 ret' "loc" "label" = Some [PStr "high"].
Proof.
  assert (Hwf : source_wf sample_metrics) by (unfold sample_metrics; wf_source).
  assert (Hnl : forall xs, PStr "high" <> PList xs) by (intros xs; discriminate).
  destruct (@leaf_appended_verbatim sample_ret sample_metrics
              "loc" "label" _ _ Hwf eq_refl eq_refl Hnl)
    as [(ret' & Hret & Hget) _].
  exists ret'. split; [exact Hret|exact Hget].
Defined.

(** ** The extractor returns well-formed mappings *)

Lemma for_each_inv {A S : Type} (body : S -> A -> result S) (P : S -> Prop)
  xs s s' :
  (forall s x s', P s -> body s x = Ok s' -> P s') ->
  P s -> for_each body xs s = Ok s' -> P s'.
Proof.
  intros Hbody. revert s. induction xs as [|x xs IH]; simpl; intros s Hs H.
  - congruence.
  - destruct (body s x) as [s1|e] eqn:E; simpl in H; [|discriminate].
    eapply IH; [|exact H]. eapply Hbody; eauto.
Qed.

Lemma analyze_inner_wf ret s2 ret' :
  map_wf ret -> analyze_inner ret s2 = Ok ret' -> map_wf ret'.
Proof.
  intros Hwf. unfold analyze_inner.
  destruct (contains "metrics" s2) as [[]|]; simpl; try congruence.
  destruct (getitem s2 "metrics") as [m|]; simpl; try congruence.
  destruct m; try congruence.
  rewrite append_metrics_merge. intros H. inversion H. now apply merge_wf.
Qed.

Lemma analyze_outer_wf ret s1 ret' :
  map_wf ret -> analyze_outer ret s1 = Ok ret' -> map_wf ret'.
Proof.
  intros Hwf. unfold analyze_outer.
  destruct (contains "spaces" s1) as [[]|]; simpl; try congruence.
  destruct (getitem s1 "spaces") as [m|]; simpl; try congruence.
  destruct (iterate m) as [xs|]; simpl; try congruence.
  apply for_each_inv; [|assumption].
  intros s x s'. apply analyze_inner_wf.
Qed.

Lemma analyze_doc_wf d m : analyze_doc d = Ok m -> map_wf m.
Proof.
  unfold analyze_doc.
  destruct (contains "spaces" d) as [[]|]; simpl; try congruence.
  - destruct (getitem d "spaces") as [sp|]; simpl; try congruence.
    destruct (iterate sp) as [xs|]; simpl; try congruence.
    apply for_each_inv; [|apply map_wf_nil].
    intros s x s'. apply analyze_outer_wf.
  - intros H. inversion H. apply map_wf_nil.
Qed.

Lemma analyze_file_wf fs f m : analyze_file fs f = Ok m -> map_wf m.
Proof.
  unfold analyze_file. destruct (fs f) as [[|d]|]; try discriminate.
  apply analyze_doc_wf.
Qed.

(** C6. When the results of two files both hold a (group, name) pair,
    merging both into a fresh destination gives that pair the series of
    the first file followed by that of the second; its length is the sum
    of the two observation counts. *)
Theorem merged_count_is_sum (fs : filesystem) (f1 f2 : string)
  (d1 d2 : metrics_map) (k1 k2 : string) (s1 s2 : series)
  (H1 : analyze_file fs f1 = Ok d1)
  (H2 : analyze_file fs f2 = Ok d2)
  (L1 : lookup2 d1 k1 k2 = Some s1)
  (L2 : lookup2 d2 k1 k2 = Some s2) :
  exists ret s,
    aggregate fs [f1; f2] = Ok ret
    /\ lookup2 ret k1 k2 = Some s
    /\ s = s1 ++ s2
    /\ List.length s = List.length s1 + List.length s2.
Proof.
  exists (merge (merge [] (as_source d1)) (as_source d2)), (s1 ++ s2).
  split; [|split; [|split]].
  - unfold aggregate, aggregate_step; simpl.
    rewrite H1; simpl. rewrite append_metrics_merge; simpl.
    rewrite H2; simpl. now rewrite append_metrics_merge.
  - rewrite lookup2_merge_wf
      by (eapply source_wf_as_source, analyze_file_wf; eassumption).
    rewrite source_leaf_as_source, L2; simpl.
    rewrite lookup2_merge_wf
      by (eapply source_wf_as_source, analyze_file_wf; eassumption).
    rewrite source_leaf_as_source, L1; simpl. reflexivity.
  - reflexivity.
  - apply length_app.
Qed.

Lemma merged_count_is_sum_witness :
  exists ret s,
    aggregate sample_fs [path_a; path_b] = Ok ret
    /\ lookup2 ret "nom" "total" = Some s
    /\ s = [PInt 2; PInt 4] ++ [PFloat (5 # 2)]
    /\ List.length s = 2 + 1.
Proof.
  exact (@merged_count_is_sum sample_fs path_a path_b _ _
           "nom" "total" [PInt 2; PInt 4] [PFloat (5 # 2)]
           eq_refl eq_refl eq_refl eq_refl).
Defined.

(** C3 (as amended). A merge never empties a series, and the series it
    creates are empty only for a leaf that is an empty list: merging any
    sequence of sources none of whose leaves is an empty list, into a
    destination whose series all have an observation, raises nothing and
    leaves every series with an observation. *)
Theorem merges_keep_series_nonempty (sources : list (dict pyval))
  (ret : metrics_map)
  (Hret : nonempty_series ret)
  (Hsources : Forall no_empty_leaf sources) :
  exists ret',
    for_each append_metrics sources ret = Ok ret' /\ nonempty_series ret'.
Proof.
  revert ret Hret. induction Hsources as [|m sources Hm _ IH]; intros ret Hret.
  - exists ret. now split.
  - simpl. rewrite append_metrics_merge; simpl.
    apply IH. now apply merge_nonempty.
Qed.

Lemma merges_keep_series_nonempty_witness :
  exists ret',
    for_each append_metrics [sample_metrics; sample_metrics] sample_ret
    = Ok ret'
    /\ nonempty_series ret'.
Proof.
  apply merges_keep_series_nonempty.
  - repeat constructor; discriminate.
  - repeat constructor.
Defined.

(** C3, as stated, fails: a leaf that is an empty list creates a series
    with no observation, in the per-file result and in the aggregate. *)
Lemma empty_series_created :
  exists ret,
    aggregate empty_leaf_fs [path_a] = Ok ret
    /\ lookup2 ret "nom" "total" = Some []
    /\ ~ nonempty_series ret.
Proof.
  eexists. split; [vm_compute; reflexivity|]. split; [reflexivity|].
  intros H. inversion H as [|? ? Hg _]. inversion Hg as [|? ? Hs _].
  now apply Hs.
Qed.

(** ** Order on numbers and [sorted] *)

Ltac place_cases :=
  repeat match goal with
         | H : context [(?x <? ?y)%Z] |- _ => destruct (Z.ltb_spec x y)
         | |- context [(?x <? ?y)%Z] => destruct (Z.ltb_spec x y)
         end;
  try congruence; try lia.

Lemma place_le_trans a b c :
  place_ltb b a = false -> place_ltb c b = false -> place_ltb c a = false.
Proof. destruct a, b, c; simpl; intros; place_cases. Qed.

Lemma place_ltb_asym a b : place_ltb a b = true -> place_ltb b a = false.
Proof. destruct a, b; simpl; intros; place_cases. Qed.


Lemma num_le_transitive : Relations_1.Transitive num_le.
Proof.
  intros x y z. unfold num_le.
  destruct (place_of x), (place_of y), (place_of z); try tauto.
  apply place_le_trans.
Qed.

Lemma num_le_ltb x y : num_le x y -> num_ltb y x = false.
Proof.
  unfold num_le, num_ltb. destruct (place_of x), (place_of y); tauto.
Qed.


Lemma ltb_false_le x y :
  comparable x -> comparable y -> num_ltb y x = false -> num_le x y.
Proof.
  unfold comparable, num_le, num_ltb.
  destruct (place_of x), (place_of y); congruence.
Qed.

Lemma ltb_true_le x y : num_ltb x y = true -> num_le x y.
Proof.
  unfold num_le, num_ltb. destruct (place_of x), (place_of y); try discriminate.
  apply place_ltb_asym.
Qed.


Lemma number_comparable v x : number v = Some x -> comparable x.
Proof.
  destruct v; simpl; intros H; inversion H; subst; unfold comparable;
    try discriminate.
  simpl. unfold float_of_literal.
  destruct (overflow_units <=? _)%Z; [destruct (Qnum q <? 0)%Z|]; discriminate.
Qed.

Lemma numbers_comparable vs xs : numbers vs = Some xs -> Forall comparable xs.
Proof.
  revert xs. induction vs as [|v vs IH]; simpl; intros xs H.
  - inversion H. constructor.
  - destruct (number v) as [x|] eqn:E; [|discriminate].
    destruct (numbers vs) as [xs'|]; [|discriminate].
    inversion H. constructor; [eapply number_comparable; eassumption|].
    now apply IH.
Qed.

Lemma insert_sorted_perm x l : Permutation (insert_sorted x l) (x :: l).
Proof.
  induction l as [|y l IH]; simpl; [reflexivity|].
  destruct (num_ltb y x); [|reflexivity].
  rewrite IH. apply perm_swap.
Qed.

Lemma sort_numbers_perm l : Permutation (sort_numbers l) l.
Proof.
  induction l as [|x l IH]; simpl; [reflexivity|].
  rewrite insert_sorted_perm. now constructor.
Qed.


Lemma insert_sorted_Sorted x l :
  comparable x -> Forall comparable l ->
  Sorted num_le l -> Sorted num_le (insert_sorted x l).
Proof.
  intros Hx Hl. induction l as [|y l IH]; simpl; intros H.
  - repeat constructor.
  - inversion Hl as [|? ? Hy Hl']; subst.
    destruct (num_ltb y x) eqn:E.
    + inversion H as [|? ? Hs Hhd]; subst.
      constructor; [now apply IH|].
      destruct l as [|z l]; simpl.
      * constructor. now apply ltb_true_le.
      * destruct (num_ltb z x); constructor.
        -- now inversion Hhd.
        -- now apply ltb_true_le.
    + constructor; [assumption|]. constructor. now apply ltb_false_le.
Qed.

Lemma sort_numbers_Sorted l :
  Forall comparable l -> Sorted num_le (sort_numbers l).
Proof.
  induction 1 as [|x l Hx Hl IH]; simpl; [constructor|].
  apply insert_sorted_Sorted; try assumption.
  now rewrite sort_numbers_perm.
Qed.


(** A sorted list is determined by its elements when those that compare
    equal are the same number. *)
Lemma Sorted_perm_eq l l' :
  Sorted num_le l -> Sorted num_le l' -> Permutation l l' ->
  (forall x y, In x l -> In y l -> same_value x y -> x = y) ->
  l = l'.
Proof.
  intros H. revert l'. induction H as [|x l Hl IH Hhd]; intros l' H' P Hties.
  - apply Permutation_nil in P. now subst.
  - destruct l' as [|y l']; [now apply Permutation_sym, Permutation_nil in P|].
    assert (Hx : StronglySorted num_le (x :: l))
      by (apply Sorted_StronglySorted;
          [apply num_le_transitive|now constructor]).
    assert (Hy : StronglySorted num_le (y :: l'))
      by (apply Sorted_StronglySorted; [apply num_le_transitive|assumption]).
    inversion Hx as [|? ? _ Fx]; inversion Hy as [|? ? _ Fy]; subst.
    rewrite Forall_forall in Fx, Fy.
    assert (Hyin : In y (x :: l))
      by (apply Permutation_in with (l := y :: l');
          [now apply Permutation_sym|now left]).
    assert (Hxin : In x (y :: l'))
      by (apply Permutation_in with (l := x :: l); [assumption|now left]).
    assert (x = y).
    { destruct Hyin as [Heq|Hyl]; [exact Heq|].
      destruct Hxin as [Heq|Hxl]; [now symmetry|].
      apply Hties; [now left|now right|].
      split; apply num_le_ltb; [now apply Fy|now apply Fx]. }
    subst y. f_equal. apply IH.
    + now inversion H'.
    + now apply Permutation_cons_inv in P.
    + intros a b Ha Hb. apply Hties; now right.
Qed.

Lemma sort_numbers_permutation l l' :
  Forall comparable l ->
  (forall x y, In x l -> In y l -> same_value x y -> x = y) ->
  Permutation l l' -> sort_numbers l = sort_numbers l'.
Proof.
  intros Hc Hties P. apply Sorted_perm_eq.
  - now apply sort_numbers_Sorted.
  - apply sort_numbers_Sorted. now rewrite <- P.
  - rewrite !sort_numbers_perm. exact P.
  - intros x y Hx Hy. apply Hties.
    + now apply Permutation_in with (l := sort_numbers l);
        [apply sort_numbers_perm|].
    + now apply Permutation_in with (l := sort_numbers l);
        [apply sort_numbers_perm|].
Qed.

(** ** [min] and [max] of a sorted list *)






(** ** Rounding to the grid of floats *)





Lemma one_unit_pos : (0 < one_unit)%Z.
Proof. reflexivity. Qed.




(** ** The [statistics] functions against the specification's formulas *)














Lemma stat_row_sorted k1 k2 v2 xs :
  numbers v2 = Some xs ->
  stat_row k1 k2 v2 = sorted_row k1 k2 (sort_numbers xs).
Proof.
  intros H. unfold stat_row, py_sorted.
  destruct v2 as [|v v2].
  - inversion H. reflexivity.
  - rewrite H. reflexivity.
Qed.


Lemma bind_ok {A B : Type} (r : result A) (k : A -> result B) b :
  bind r k = Ok b -> exists a, r = Ok a /\ k a = Ok b.
Proof. destruct r as [a|e]; [|discriminate]. intros H. now exists a. Qed.




(** ** The reporter's loop *)

Lemma write_rows_printed es lines out :
  Forall2 (fun e line => printed e = Ok line) es lines ->
  write_rows es out = (out ++ lines, None).
Proof.
  intros H. revert out.
  induction H as [|[[k1 k2] s] line es lines He H IH]; intros out.
  - simpl. now rewrite app_nil_r.
  - unfold printed in He. simpl in He. simpl. rewrite He, IH, <- app_assoc.
    reflexivity.
Qed.

Lemma write_rows_stops pre lines k1 k2 s post e out :
  Forall2 (fun e line => printed e = Ok line) pre lines ->
  stat_line k1 k2 s = Raise e ->
  write_rows (pre ++ (k1, k2, s) :: post) out = (out ++ lines, Some e).
Proof.
  intros H Hs. revert out.
  induction H as [|[[k1' k2'] s'] line pre lines He H IH]; intros out.
  - simpl. now rewrite Hs, app_nil_r.
  - unfold printed in He. simpl in He. simpl. rewrite He, IH, <- app_assoc.
    reflexivity.
Qed.

Lemma write_rows_complete es out out' :
  write_rows es out = (out', None) ->
  exists lines,
    out' = out ++ lines /\ Forall2 (fun e line => printed e = Ok line) es lines.
Proof.
  revert out. induction es as [|[[k1 k2] s] es IH]; intros out H.
  - simpl in H. inversion H. exists []. split; [now rewrite app_nil_r|constructor].
  - simpl in H. destruct (stat_line k1 k2 s) as [line|e] eqn:E; [|discriminate].
    destruct (IH _ H) as (lines & Hout & Hall).
    exists (line :: lines). split.
    + rewrite Hout, <- app_assoc. reflexivity.
    + constructor; [exact E|exact Hall].
Qed.






















(** C5 (as amended).  A document in which ['spaces' in d] is false, an
    object without that key in particular, is analysed to the empty
    mapping without an exception, and merging that result changes
    nothing in the aggregate. *)
Theorem no_spaces_field (d : pyval)
  (Hlacks : contains "spaces" d = Ok false) :
  analyze_doc d = Ok []
  /\ forall (fs : filesystem) (f : string) (ret : metrics_map),
       fs f = Some (Document d) ->
       analyze_file fs f = Ok [] /\ aggregate_step fs ret f = Ok ret.
Proof.
  assert (H : analyze_doc d = Ok []) by (unfold analyze_doc; now rewrite Hlacks).
  split; [exact H|].
  intros fs f ret Hf. unfold aggregate_step, analyze_file.
  rewrite Hf, H. split; reflexivity.
Qed.

Lemma no_spaces_field_witness :
  analyze_doc (PDict [("name", PStr "src/lib.rs"); ("kind", PStr "unit")])
  = Ok [].
Proof.
  exact (proj1 (@no_spaces_field
                  (PDict [("name", PStr "src/lib.rs"); ("kind", PStr "unit")])
                  eq_refl)).
Defined.

(** C5, as stated, fails: the documents [null] and [5] are well-formed
    JSON without a "spaces" field, and ['spaces' not in d] raises
    [TypeError] on them. *)
Lemma scalar_document_raises :
  analyze_doc PNone = Raise TypeError
  /\ analyze_doc (PInt 5) = Raise TypeError
  /\ analyze_file (fun _ => Some (Document (PInt 5))) path_a = Raise TypeError.
Proof. repeat split. Qed.

(** ** The run as a fold over per-file results *)

Lemma aggregate_from_ok fs files ret :
  Forall (fun f => exists d, analyze_file fs f = Ok d) files ->
  for_each (aggregate_step fs) files ret
  = Ok (merge_all (map (data_of fs) files) ret).
Proof.
  intros H. revert ret. induction H as [|f files [d Hd] H IH]; intros ret.
  - reflexivity.
  - assert (Hdata : data_of fs f = d) by (unfold data_of; now rewrite Hd).
    simpl. unfold aggregate_step at 1. rewrite Hd, Hdata. cbn [bind].
    rewrite append_metrics_merge. cbn [bind]. apply IH.
Qed.

Lemma aggregate_from_inv fs files ret ret' :
  for_each (aggregate_step fs) files ret = Ok ret' ->
  Forall (fun f => exists d, analyze_file fs f = Ok d) files.
Proof.
  revert ret. induction files as [|f files IH]; intros ret H.
  - constructor.
  - simpl in H. unfold aggregate_step at 1 in H.
    destruct (analyze_file fs f) as [d|e] eqn:E; [|discriminate].
    cbn [bind] in H. rewrite append_metrics_merge in H. cbn [bind] in H.
    constructor; [now exists d|]. eapply IH; eassumption.
Qed.

Lemma aggregate_merge_all fs files ret :
  aggregate fs files = Ok ret ->
  Forall (fun f => exists d, analyze_file fs f = Ok d) files
  /\ ret = merge_all (map (data_of fs) files) [].
Proof.
  unfold aggregate. intros H.
  pose proof H as Hall. apply aggregate_from_inv in Hall.
  split; [exact Hall|].
  rewrite aggregate_from_ok in H by exact Hall. now inversion H.
Qed.

Lemma data_of_wf fs f : map_wf (data_of fs f).
Proof.
  unfold data_of. destruct (analyze_file fs f) eqn:E.
  - eapply analyze_file_wf; eassumption.
  - apply map_wf_nil.
Qed.

Lemma merge_all_wf ds ret : map_wf ret -> map_wf (merge_all ds ret).
Proof.
  unfold merge_all. revert ret.
  induction ds as [|d ds IH]; simpl; intros ret H; auto.
  apply IH. now apply merge_wf.
Qed.

Lemma gathered_absent k1 k2 ds : present k1 k2 ds = false -> gathered k1 k2 ds = [].
Proof.
  unfold present, gathered. induction ds as [|d ds IH]; simpl; [reflexivity|].
  intros H. apply orb_false_iff in H. destruct H as [H1 H2].
  rewrite IH by assumption. destruct (lookup2 d k1 k2); [discriminate|reflexivity].
Qed.

Lemma lookup2_merge_all ds ret k1 k2 :
  Forall map_wf ds ->
  lookup2 (merge_all ds ret) k1 k2
  = if present k1 k2 ds
    then Some (or_empty (lookup2 ret k1 k2) ++ gathered k1 k2 ds)
    else lookup2 ret k1 k2.
Proof.
  intros H. revert ret. induction H as [|d ds Hd H IH]; intros ret.
  - reflexivity.
  - unfold merge_all in *. simpl fold_left. rewrite IH.
    rewrite lookup2_merge_wf by now apply source_wf_as_source.
    rewrite source_leaf_as_source.
    unfold present, gathered. simpl existsb. simpl flat_map.
    fold (present k1 k2 ds). fold (gathered k1 k2 ds).
    destruct (lookup2 d k1 k2) as [s|]; simpl.
    + destruct (present k1 k2 ds) eqn:P.
      * now rewrite app_assoc.
      * rewrite (gathered_absent _ _ _ P). now rewrite app_nil_r.
    + reflexivity.
Qed.

(** ** Entries and lookups *)

Lemma In_entries ret k1 k2 s :
  map_wf ret -> (In (k1, k2, s) (entries ret) <-> lookup2 ret k1 k2 = Some s).
Proof.
  intros [Hwf Hgroups]. unfold entries, lookup2. rewrite in_flat_map. split.
  - intros ([k g] & Hin & Hs). simpl in Hs. apply in_map_iff in Hs.
    destruct Hs as ([k' s'] & Heq & Hin'). simpl in Heq. inversion Heq; subst.
    rewrite (@In_dict_get _ _ _ _ Hwf Hin).
    apply In_dict_get; [|assumption].
    rewrite Forall_forall in Hgroups. exact (Hgroups _ Hin).
  - destruct (dict_get k1 ret) as [g|] eqn:E; [|discriminate].
    intros Hs. exists (k1, g). split; [now apply dict_get_In|].
    simpl. apply in_map_iff. exists (k2, s). split; [reflexivity|].
    now apply dict_get_In.
Qed.

Lemma NoDup_entries ret : map_wf ret -> NoDup (map fst (entries ret)).
Proof.
  intros [Hwf Hgroups]. unfold entries.
  induction ret as [|[k g] ret IH]; simpl; [constructor|].
  inversion Hwf as [|? ? Hnotin Hwf']; subst.
  inversion Hgroups as [|? ? Hg Hgroups']; subst. simpl in Hg.
  rewrite map_app. apply NoDup_app.
  - rewrite map_map. simpl.
    change (NoDup (map (fun ks : string * series => (k, fst ks)) g)).
    rewrite <- (map_map fst (fun k2 : string => (k, k2))).
    apply Finite.Injective_map_NoDup; [|exact Hg].
    intros a b Hab. now inversion Hab.
  - now apply IH.
  - intros [a b] Hin1 Hin2.
    apply in_map_iff in Hin1. destruct Hin1 as ([[a1 b1] s1] & Heq1 & Hin1).
    apply in_map_iff in Hin1. destruct Hin1 as (ks & Heq1' & _).
    simpl in *. inversion Heq1'; subst. inversion Heq1; subst.
    apply in_map_iff in Hin2. destruct Hin2 as ([[a2 b2] s2] & Heq2 & Hin2).
    simpl in Heq2. inversion Heq2; subst.
    apply in_flat_map in Hin2. destruct Hin2 as ([k' g'] & Hin2 & Hin2').
    apply in_map_iff in Hin2'. destruct Hin2' as (ks' & Heq' & _).
    simpl in Heq'. inversion Heq'; subst.
    apply Hnotin. change a with (fst (a, g')). now apply in_map.
Qed.



Lemma analyze_files_complete fs files :
  snd (analyze_files fs files) = None ->
  exists ret lines,
    aggregate fs files = Ok ret
    /\ analyze_files fs files = (Some (header :: lines), None)
    /\ Forall2 (fun e line => printed e = Ok line) (entries ret) lines.
Proof.
  unfold analyze_files. destruct (aggregate fs files) as [ret|e]; [|discriminate].
  unfold report. destruct (write_rows (entries ret) [header]) as [o e] eqn:E.
  simpl. intros ->. destruct (write_rows_complete _ _ E) as (lines & -> & Hall).
  exists ret, lines. now repeat split.
Qed.



(** ** The report and the order of the observations *)

Lemma numbers_perm s s' :
  Permutation s s' ->
  match numbers s, numbers s' with
  | Some qs, Some qs' => Permutation qs qs'
  | None, None => True
  | _, _ => False
  end.
Proof.
  induction 1 as [|x l l' P IH|x y l|l l' l'' P IH P' IH'].
  - simpl. constructor.
  - simpl. destruct (number x); [|exact I].
    destruct (numbers l), (numbers l'); try exact IH. now constructor.
  - simpl. destruct (number x), (number y), (numbers l);
      try exact I. apply perm_swap.
  - destruct (numbers l), (numbers l'), (numbers l''); try tauto.
    now transitivity l1.
Qed.

Lemma pynum_eqb_eq x y : pynum_eqb x y = true -> x = y.
Proof.
  destruct x as [a|[s u|s|]], y as [b|[s' u'|s'|]]; simpl; try discriminate.
  - intros H. apply Z.eqb_eq in H. now subst.
  - intros H. apply andb_true_iff in H. destruct H as [Hs Hu].
    apply Bool.eqb_prop in Hs. apply Z.eqb_eq in Hu. now subst.
  - intros H. apply Bool.eqb_prop in H. now subst.
  - reflexivity.
Qed.

Lemma free_of_ties_spec s xs :
  numbers s = Some xs -> free_of_ties s = true ->
  forall x y, In x xs -> In y xs -> same_value x y -> x = y.
Proof.
  unfold free_of_ties. intros -> H x y Hx Hy [Hxy Hyx].
  rewrite forallb_forall in H. specialize (H x Hx).
  rewrite forallb_forall in H. specialize (H y Hy).
  unfold tied in H. rewrite Hxy, Hyx in H. simpl in H.
  apply negb_true_iff, negb_false_iff in H. now apply pynum_eqb_eq.
Qed.

(** Without ties the sorted series does not depend on the order of the
    observations. *)
Lemma canon_perm k s s' :
  Permutation s s' -> free_of_ties s = true -> canon (k, s) = canon (k, s').
Proof.
  intros P Hties. pose proof (numbers_perm P) as Hnum.
  unfold canon. simpl. f_equal.
  destruct (numbers s) as [xs|] eqn:E, (numbers s') as [xs'|]; try tauto.
  simpl. f_equal. apply sort_numbers_permutation.
  - eapply numbers_comparable; eassumption.
  - eapply free_of_ties_spec; eassumption.
  - exact Hnum.
Qed.

Lemma printed_canon e : printed e = canon_line (canon e).
Proof.
  destruct e as [[k1 k2] s]. unfold printed, stat_line, canon_line, canon.
  cbn [fst snd]. destruct (numbers s) as [xs|] eqn:E; simpl.
  - now rewrite (stat_row_sorted k1 k2 _ E).
  - unfold stat_row, py_sorted. rewrite E. destruct s; [discriminate|reflexivity].
Qed.

Lemma line_of_canon e : line_of e = canon_text (canon e).
Proof. unfold line_of, canon_text. now rewrite printed_canon. Qed.

Lemma NoDup_canon_entries ret : map_wf ret -> NoDup (map canon (entries ret)).
Proof.
  intros Hwf. apply NoDup_map_inv with (f := fst).
  rewrite map_map. simpl. now apply NoDup_entries.
Qed.

Lemma canon_entries_perm ret1 ret2 :
  map_wf ret1 -> map_wf ret2 ->
  (forall k1 k2, same_observations (lookup2 ret1 k1 k2) (lookup2 ret2 k1 k2)) ->
  Forall (fun e => free_of_ties (snd e) = true) (entries ret1) ->
  Permutation (map canon (entries ret1)) (map canon (entries ret2)).
Proof.
  intros Hwf1 Hwf2 Hsame Hties. rewrite Forall_forall in Hties.
  apply NoDup_Permutation; try now apply NoDup_canon_entries.
  intros c. split; intros Hc; apply in_map_iff in Hc.
  - destruct Hc as ([[k1 k2] s1] & Hcanon & Hin).
    pose proof (Hties _ Hin) as Ht. simpl in Ht.
    apply (@In_entries _ k1 k2 s1 Hwf1) in Hin.
    specialize (Hsame k1 k2). rewrite Hin in Hsame.
    destruct (lookup2 ret2 k1 k2) as [s2|] eqn:E; simpl in Hsame; [|tauto].
    apply (@In_entries _ k1 k2 s2 Hwf2) in E.
    apply in_map_iff. exists (k1, k2, s2). split; [|exact E].
    rewrite <- Hcanon. symmetry. now apply canon_perm.
  - destruct Hc as ([[k1 k2] s2] & Hcanon & Hin).
    apply (@In_entries _ k1 k2 s2 Hwf2) in Hin.
    specialize (Hsame k1 k2). rewrite Hin in Hsame.
    destruct (lookup2 ret1 k1 k2) as [s1|] eqn:E; simpl in Hsame; [|tauto].
    apply (@In_entries _ k1 k2 s1 Hwf1) in E.
    pose proof (Hties _ E) as Ht. simpl in Ht.
    apply in_map_iff. exists (k1, k2, s1). split; [|exact E].
    rewrite <- Hcanon. now apply canon_perm.
Qed.

Lemma present_perm k1 k2 ds ds' :
  Permutation ds ds' -> present k1 k2 ds = present k1 k2 ds'.
Proof.
  intros P. unfold present.
  destruct (existsb _ ds) eqn:E1, (existsb _ ds') eqn:E2; try reflexivity.
  - apply existsb_exists in E1. destruct E1 as (d & Hin & Hd).
    assert (E : existsb (fun d => is_some (lookup2 d k1 k2)) ds' = true)
      by (apply existsb_exists; exists d; split;
          [now apply Permutation_in with (l := ds)|assumption]).
    congruence.
  - apply existsb_exists in E2. destruct E2 as (d & Hin & Hd).
    assert (E : existsb (fun d => is_some (lookup2 d k1 k2)) ds = true)
      by (apply existsb_exists; exists d; split;
          [apply Permutation_in with (l := ds');
           [now apply Permutation_sym|assumption]|assumption]).
    congruence.
Qed.

Lemma merge_all_perm ds ds' k1 k2 :
  Forall map_wf ds -> Permutation ds ds' ->
  same_observations (lookup2 (merge_all ds []) k1 k2)
                    (lookup2 (merge_all ds' []) k1 k2).
Proof.
  intros Hwf P.
  assert (Hwf' : Forall map_wf ds') by now rewrite <- P.
  rewrite !lookup2_merge_all by assumption.
  rewrite <- (present_perm k1 k2 P).
  destruct (present k1 k2 ds); simpl; [|exact I].
  unfold gathered. now rewrite P.
Qed.

(** ** Runs over the same files in another order *)

Lemma printed_line_of es lines :
  Forall2 (fun e line => printed e = Ok line) es lines ->
  lines = map line_of es /\ Forall (fun e => is_ok (printed e) = true) es.
Proof.
  induction 1 as [|e line es lines He H [IH1 IH2]].
  - split; [reflexivity|constructor].
  - split.
    + simpl. unfold line_of at 1. rewrite He. now f_equal.
    + constructor; [now rewrite He|exact IH2].
Qed.

Lemma line_of_printed es :
  Forall (fun e => is_ok (printed e) = true) es ->
  Forall2 (fun e line => printed e = Ok line) es (map line_of es).
Proof.
  induction 1 as [|e es He H IH]; simpl; constructor; [|exact IH].
  unfold line_of. destruct (printed e); [reflexivity|discriminate].
Qed.

Lemma analyze_files_perm fs files1 files2 ret1 rows1 :
  Permutation files1 files2 ->
  analyze_files fs files1 = (Some (header :: rows1), None) ->
  aggregate fs files1 = Ok ret1 ->
  Forall (fun e => free_of_ties (snd e) = true) (entries ret1) ->
  exists rows2,
    analyze_files fs files2 = (Some (header :: rows2), None)
    /\ Permutation rows1 rows2.
Proof.
  intros P H Hagg Hties.
  assert (Hnone : snd (analyze_files fs files1) = None) by now rewrite H.
  destruct (analyze_files_complete _ _ Hnone) as (ret & lines & Hagg' & Hrun & Hall).
  rewrite Hagg in Hagg'. inversion Hagg'; subst ret. clear Hagg'.
  rewrite H in Hrun. inversion Hrun; subst lines. clear Hrun.
  destruct (printed_line_of Hall) as [Hrows Hok].
  destruct (@aggregate_merge_all _ _ _ Hagg) as [Hfiles Hret1].
  assert (Hfiles2 : Forall (fun f => exists d, analyze_file fs f = Ok d) files2)
    by now rewrite <- P.
  set (ret2 := merge_all (map (data_of fs) files2) []).
  assert (Hagg2 : aggregate fs files2 = Ok ret2)
    by (unfold aggregate; now rewrite aggregate_from_ok).
  assert (Hwf1 : map_wf ret1) by (rewrite Hret1; apply merge_all_wf, map_wf_nil).
  assert (Hwf2 : map_wf ret2) by apply merge_all_wf, map_wf_nil.
  assert (Hcanon : Permutation (map canon (entries ret1))
                               (map canon (entries ret2))).
  { apply canon_entries_perm; try assumption.
    intros k1 k2. rewrite Hret1. apply merge_all_perm.
    - apply Forall_map, Forall_forall. intros x _. apply data_of_wf.
    - now apply Permutation_map. }
  assert (Hok2 : Forall (fun e => is_ok (printed e) = true) (entries ret2)).
  { assert (Hc1 : Forall (fun c => is_ok (canon_line c) = true)
                    (map canon (entries ret1))).
    { apply Forall_map. eapply Forall_impl; [|exact Hok].
      intros e He. now rewrite <- printed_canon. }
    rewrite Hcanon in Hc1. apply Forall_map in Hc1.
    eapply Forall_impl; [|exact Hc1].
    intros e He. simpl in He. now rewrite printed_canon. }
  exists (map line_of (entries ret2)). split.
  - unfold analyze_files, report. rewrite Hagg2.
    now rewrite (write_rows_printed [header] (line_of_printed Hok2)).
  - rewrite Hrows.
    rewrite (map_ext _ _ line_of_canon (entries ret1)).
    rewrite (map_ext _ _ line_of_canon (entries ret2)).
    rewrite <- !(map_map canon canon_text).
    now apply Permutation_map.
Qed.

(** ** Listings of one directory *)

Lemma walk_unfold root files dirs :
  walk root (Dir files dirs)
  = (root, files)
    :: flat_map (fun ns => walk (path_join root (fst ns)) (snd ns)) dirs.
Proof.
  simpl. f_equal. induction dirs as [|[name sub] dirs IH]; simpl.
  - reflexivity.
  - now rewrite IH.
Qed.

Lemma filter_perm {A : Type} (f : A -> bool) l l' :
  Permutation l l' -> Permutation (filter f l) (filter f l').
Proof.
  induction 1 as [|x l l' P IH|x y l|l l' l'' P IH P' IH']; simpl.
  - constructor.
  - destruct (f x); [now constructor|assumption].
  - destruct (f x), (f y); try reflexivity. apply perm_swap.
  - now transitivity (filter f l').
Qed.

Lemma find_files_same_dir pattern t t' :
  same_dir t t' ->
  forall directory,
    Permutation (find_files directory pattern t)
                (find_files directory pattern t').
Proof.
  unfold find_files.
  induction 1 as [t|t1 t2 t3 H1 IH1 H2 IH2|files files' dirs P
                 |files dirs dirs' P|files name sub sub' before after H IH];
    intros directory.
  - reflexivity.
  - now transitivity
      (flat_map (fun rf => map (path_join (fst rf))
                             (filter (fnmatch pattern) (snd rf)))
                (walk directory t2)).
  - rewrite !walk_unfold. simpl. apply Permutation_app_tail.
    now apply Permutation_map, filter_perm.
  - rewrite !walk_unfold. simpl. apply Permutation_app_head.
    now rewrite P.
  - rewrite !walk_unfold. simpl. apply Permutation_app_head.
    rewrite !flat_map_app. simpl. rewrite !flat_map_app.
    apply Permutation_app_head, Permutation_app_tail. apply IH.
Qed.

(** C8 (as amended).  Two runs over the same directory, whose entries
    [os.walk] may list in different orders, print the same header and
    the same data rows when the first run completes and no series holds
    two observations that compare equal without being the same number;
    the rows agree byte for byte, but their order follows the listing
    order, so the two reports are equal up to the order of their data
    rows. *)
Theorem report_up_to_row_order (fs : filesystem) (t1 t2 : tree)
  (ret1 : metrics_map) (rows1 : list string)
  (Hsame : same_dir t1 t2)
  (Hrun : main fs t1 = (Some (header :: rows1), None))
  (Hagg : aggregate fs (find_files "rust-code-analysis/src" "*.json" t1)
          = Ok ret1)
  (Hties : Forall (fun e => free_of_ties (snd e) = true) (entries ret1)) :
  exists rows2,
    main fs t2 = (Some (header :: rows2), None) /\ Permutation rows1 rows2.
Proof.
  unfold main in *. eapply analyze_files_perm; try eassumption.
  now apply find_files_same_dir.
Qed.

Lemma report_up_to_row_order_witness :
  exists rows2,
    main sample_fs listing_ba = (Some (header :: rows2), None)
    /\ Permutation
         [line_of ("cyclomatic", "sum", [PInt 1; PInt 3]);
          line_of ("nom", "total", [PInt 2; PInt 4; PFloat (5 # 2)])]
         rows2.
Proof.
  apply (@report_up_to_row_order sample_fs listing_ab listing_ba
           [("cyclomatic", [("sum", [PInt 1; PInt 3])]);
            ("nom", [("total", [PInt 2; PInt 4; PFloat (5 # 2)])])]).
  - apply same_dir_files.
    exact (Permutation_cons_append ["b.rs.json"; "notes.txt"] "a.rs.json").
  - vm_compute. reflexivity.
  - vm_compute. reflexivity.
  - repeat constructor.
Defined.

(** C8, as stated, fails: the two listings of one directory give
    reports whose data rows come in different orders. *)
Lemma listing_order_changes_report :
  same_dir listing_ab listing_ba
  /\ exists out1 out2,
       main sample_fs listing_ab = (Some out1, None)
       /\ main sample_fs listing_ba = (Some out2, None)
       /\ out1 <> out2.
Proof.
  split.
  - apply same_dir_files.
    exact (Permutation_cons_append ["b.rs.json"; "notes.txt"] "a.rs.json").
  - eexists. eexists. split; [vm_compute; reflexivity|].
    split; [vm_compute; reflexivity|]. discriminate.
Qed.

(** * Further properties of the program *)

(** ** File discovery *)

Lemma flat_map_flat_map {A B C : Type} (f : B -> list C) (g : A -> list B) l :
  flat_map f (flat_map g l) = flat_map (fun x => flat_map f (g x)) l.
Proof.
  induction l as [|x l IH]; simpl; [reflexivity|].
  now rewrite flat_map_app, IH.
Qed.

(** X1. [find_files] lists a directory top-down: first the matching
    files of the directory itself, in listing order, each joined to the
    directory's path, then the results of its sub-directories, one
    sub-directory after the other in listing order. *)
Theorem find_files_top_down (directory pattern : string)
  (files : list string) (dirs : list (string * tree)) :
  find_files directory pattern (Dir files dirs)
  = map (path_join directory) (filter (fnmatch pattern) files)
    ++ flat_map (fun ns => find_files (path_join directory (fst ns)) pattern
                             (snd ns)) dirs.
Proof.
  unfold find_files. rewrite walk_unfold. simpl. f_equal.
  apply flat_map_flat_map.
Qed.

Lemma glob_star p s :
  glob ("*"%char :: p) s = true
  <-> exists pre suf, s = pre ++ suf /\ glob p suf = true.
Proof.
  induction s as [|c s IH].
  - simpl. rewrite orb_false_r. split.
    + intros H. exists [], []. now split.
    + intros (pre & suf & Heq & H). symmetry in Heq.
      apply app_eq_nil in Heq. destruct Heq; now subst.
  - change (glob ("*"%char :: p) (c :: s))
      with (glob p (c :: s) || glob ("*"%char :: p) s)%bool.
    rewrite orb_true_iff, IH. split.
    + intros [H|(pre & suf & Heq & H)].
      * exists [], (c :: s). now split.
      * exists (c :: pre), suf. subst. now split.
    + intros (pre & suf & Heq & H). destruct pre as [|c' pre].
      * left. simpl in Heq. now subst.
      * right. inversion Heq; subst. now exists pre, suf.
Qed.

Lemma glob_literal p s :
  Forall (fun c => c <> "*"%char /\ c <> "?"%char) p ->
  (glob p s = true <-> s = p).
Proof.
  intros H. revert s. induction H as [|c p [Hs Hq] H IH]; intros s.
  - simpl. destruct s; split; congruence.
  - apply Ascii.eqb_neq in Hs, Hq. simpl. rewrite Hs, Hq. simpl.
    destruct s as [|d s]; [split; congruence|].
    rewrite andb_true_iff, Ascii.eqb_eq, IH. split.
    + intros [-> ->]. reflexivity.
    + intros Heq. inversion Heq. now split.
Qed.

Lemma list_ascii_of_string_app a b :
  list_ascii_of_string (a ++ b)%string
  = list_ascii_of_string a ++ list_ascii_of_string b.
Proof.
  induction a as [|c a IH]; simpl; [reflexivity|]. now rewrite IH.
Qed.

(** X2. The pattern of the main program selects exactly the names that
    end in [.json]: nothing is required of the stem, which may be empty
    or contain further dots. *)
Theorem fnmatch_json (name : string) :
  fnmatch "*.json" name = true
  <-> exists stem, name = (stem ++ ".json")%string.
Proof.
  unfold fnmatch. change (list_ascii_of_string "*.json")
    with ("*"%char :: list_ascii_of_string ".json").
  rewrite glob_star. split.
  - intros (pre & suf & Heq & H).
    apply glob_literal in H;
      [|simpl; repeat constructor; discriminate].
    exists (string_of_list_ascii pre).
    rewrite <- (string_of_list_ascii_of_string name), Heq, H.
    rewrite <- (list_ascii_of_string_of_list_ascii pre) at 1.
    rewrite <- list_ascii_of_string_app.
    now rewrite string_of_list_ascii_of_string.
  - intros [stem ->]. exists (list_ascii_of_string stem),
      (list_ascii_of_string ".json").
    split; [apply list_ascii_of_string_app|reflexivity].
Qed.

(** X3. The order in which a directory tree is listed changes the order
    of the paths [find_files] returns and nothing else: two listings of
    one tree give results that are permutations of each other. *)
Theorem find_files_listing_order (directory pattern : string) (t t' : tree)
  (Hsame : same_dir t t') :
  Permutation (find_files directory pattern t)
              (find_files directory pattern t').
Proof. now apply find_files_same_dir. Qed.

Lemma find_files_listing_order_witness :
  Permutation
    ["out/a.rs.json"; "out/sub/c.json"; "out/sub/d.json"]
    (find_files "out" "*.json"
       (Dir ["readme.md"; "a.rs.json"] [("sub", Dir ["d.json"; "c.json"] [])])).
Proof.
  apply (@find_files_listing_order "out" "*.json"
           (Dir ["a.rs.json"; "readme.md"] [("sub", Dir ["c.json"; "d.json"] [])])).
  eapply same_dir_trans.
  - apply same_dir_files. apply perm_swap.
  - apply (@same_dir_sub _ "sub" _ _ [] []).
    apply same_dir_files. apply perm_swap.
Defined.

(** ** Metric extraction *)

Lemma analyze_inner_shaped ret s2 :
  is_dict s2 = true ->
  analyze_inner ret s2 = Ok (fold_left merge (inner_metrics s2) ret).
Proof.
  destruct s2 as [| | | | | |inner]; try discriminate. intros _.
  unfold analyze_inner, inner_metrics, contains, getitem, subscript, dict_mem.
  destruct (dict_get "metrics" inner) as [m|]; simpl; [|reflexivity].
  destruct m; try reflexivity. apply append_metrics_merge.
Qed.

Lemma analyze_inners_shaped inners ret :
  forallb is_dict inners = true ->
  for_each analyze_inner inners ret
  = Ok (fold_left merge (flat_map inner_metrics inners) ret).
Proof.
  revert ret. induction inners as [|s2 inners IH]; intros ret H.
  - reflexivity.
  - simpl in H. apply andb_true_iff in H. destruct H as [H1 H2].
    simpl. rewrite analyze_inner_shaped by assumption. cbn [bind].
    rewrite IH by assumption. now rewrite fold_left_app.
Qed.

Lemma analyze_outer_shaped ret s1 :
  outer_shaped s1 = true ->
  analyze_outer ret s1 = Ok (fold_left merge (outer_metrics s1) ret).
Proof.
  destruct s1 as [| | | | | |outer]; try discriminate.
  unfold outer_shaped, analyze_outer, outer_metrics, contains, getitem,
    subscript, dict_mem.
  destruct (dict_get "spaces" outer) as [v|]; simpl; [|reflexivity].
  destruct v; try discriminate. simpl. apply analyze_inners_shaped.
Qed.

Lemma analyze_outers_shaped outers ret :
  forallb outer_shaped outers = true ->
  for_each analyze_outer outers ret
  = Ok (fold_left merge (flat_map outer_metrics outers) ret).
Proof.
  revert ret. induction outers as [|s1 outers IH]; intros ret H.
  - reflexivity.
  - simpl in H. apply andb_true_iff in H. destruct H as [H1 H2].
    simpl. rewrite analyze_outer_shaped by assumption. cbn [bind].
    rewrite IH by assumption. now rewrite fold_left_app.
Qed.

(** X4. On a document of the expected structure (an object whose
    "spaces", if present, is a list of objects, whose "spaces", if
    present, are lists of objects) the extractor raises nothing, and its
    result is the merge, in document order, of the "metrics" mappings of
    the scopes two levels down; a scope whose "metrics" is missing or is
    not a mapping contributes nothing. *)
Theorem analyze_doc_well_shaped (d : pyval)
  (Hshape : well_shaped d = true) :
  analyze_doc d = Ok (fold_left merge (doc_metrics d) []).
Proof.
  destruct d as [| | | | | |top]; try discriminate.
  unfold well_shaped in Hshape.
  unfold analyze_doc, doc_metrics, contains, getitem, subscript, dict_mem.
  destruct (dict_get "spaces" top) as [v|]; simpl; [|reflexivity].
  destruct v; try discriminate. simpl. now apply analyze_outers_shaped.
Qed.

Lemma analyze_doc_well_shaped_witness :
  analyze_doc file_a
  = Ok [("cyclomatic", [("sum", [PInt 1; PInt 3])]);
        ("nom", [("total", [PInt 2; PInt 4])])].
Proof.
  exact (@analyze_doc_well_shaped file_a eq_refl).
Defined.

Lemma for_each_map {A S : Type} (body : S -> A -> result S) (f : A -> A) xs s :
  (forall s x, body s (f x) = body s x) ->
  for_each body (map f xs) s = for_each body xs s.
Proof.
  intros H. revert s. induction xs as [|x xs IH]; intros s; simpl.
  - reflexivity.
  - rewrite H. destruct (body s x); simpl; auto.
Qed.

Lemma analyze_inner_prune ret s2 :
  analyze_inner ret (prune_inner s2) = analyze_inner ret s2.
Proof.
  destruct s2 as [| | | | | |inner]; try reflexivity.
  unfold prune_inner, only_key, analyze_inner, contains, getitem, subscript,
    dict_mem.
  destruct (dict_get "metrics" inner); reflexivity.
Qed.

Lemma analyze_outer_prune ret s1 :
  analyze_outer ret (prune_outer s1) = analyze_outer ret s1.
Proof.
  destruct s1 as [| | | | | |outer]; try reflexivity.
  unfold prune_outer, only_key, analyze_outer, contains, getitem, subscript,
    dict_mem.
  destruct (dict_get "spaces" outer) as [v|]; [|reflexivity].
  simpl. destruct v; try reflexivity. simpl.
  apply for_each_map. intros s x. apply analyze_inner_prune.
Qed.

(** X5. The extractor reads three fields and nothing else: "spaces" of
    the document, "spaces" of each first-level scope and "metrics" of
    each second-level scope.  Stripping every other field, the metrics
    of first-level scopes and the scopes nested below the second level
    among them, changes neither its result nor the exception it
    raises, whatever the document. *)
Theorem analyze_doc_prune (d : pyval) :
  analyze_doc (prune_doc d) = analyze_doc d.
Proof.
  destruct d as [| | | | | |top]; try reflexivity.
  unfold prune_doc, only_key, analyze_doc, contains, getitem, subscript,
    dict_mem.
  destruct (dict_get "spaces" top) as [v|]; [|reflexivity].
  simpl. destruct v; try reflexivity. simpl.
  apply for_each_map. intros s x. apply analyze_outer_prune.
Qed.

(** X6. A "spaces" field that is [null], a boolean or a number cannot be
    iterated: the extractor raises [TypeError], and so does a run that
    reaches such a file, before the report is opened. *)
Theorem scalar_spaces_raises (top : dict pyval) (v : pyval)
  (Hspaces : dict_get "spaces" top = Some v)
  (Hscalar : scalar v = true) :
  analyze_doc (PDict top) = Raise TypeError
  /\ forall (fs : filesystem) (f : string),
       fs f = Some (Document (PDict top)) ->
       analyze_files fs [f] = (None, Some TypeError).
Proof.
  assert (H : analyze_doc (PDict top) = Raise TypeError).
  { unfold analyze_doc, contains, getitem, subscript, dict_mem.
    rewrite Hspaces. simpl. destruct v; try discriminate; reflexivity. }
  split; [exact H|].
  intros fs f Hf. unfold analyze_files, aggregate. simpl.
  unfold aggregate_step, analyze_file. now rewrite Hf, H.
Qed.

Lemma scalar_spaces_raises_witness :
  analyze_doc (PDict [("name", PStr "lib.rs"); ("spaces", PNone)])
  = Raise TypeError.
Proof.
  exact (proj1 (@scalar_spaces_raises
                  [("name", PStr "lib.rs"); ("spaces", PNone)] PNone
                  eq_refl eq_refl)).
Defined.

(** ** Runs of [analyze_files] *)

Lemma for_each_app {A S : Type} (body : S -> A -> result S) xs ys s :
  for_each body (xs ++ ys) s = (s' <- for_each body xs s ;; for_each body ys s').
Proof.
  revert s. induction xs as [|x xs IH]; intros s; simpl.
  - reflexivity.
  - destruct (body s x); simpl; auto.
Qed.

(** X7. A file that cannot be analysed aborts the run: when the files
    before it are analysed and it raises (missing file, malformed JSON
    or an exception of the extractor), [analyze_files] raises the same
    exception, reads none of the files after it and does not open the
    report, so an earlier report is left as it was. *)
Theorem failing_file_aborts (fs : filesystem) (before after : list string)
  (f : string) (e : error)
  (Hbefore : Forall (fun g => exists d, analyze_file fs g = Ok d) before)
  (Hfails : analyze_file fs f = Raise e) :
  analyze_files fs (before ++ f :: after) = (None, Some e)
  /\ forall fs',
       (forall g, In g (before ++ [f]) -> fs' g = fs g) ->
       analyze_files fs' (before ++ f :: after) = (None, Some e).
Proof.
  assert (Hgen : forall fs',
             (forall g, In g (before ++ [f]) -> fs' g = fs g) ->
             analyze_files fs' (before ++ f :: after) = (None, Some e)).
  { intros fs' Hfs.
    assert (Hb : Forall (fun g => exists d, analyze_file fs' g = Ok d) before).
    { rewrite Forall_forall in *. intros g Hg.
      destruct (Hbefore g Hg) as [d Hd]. exists d.
      unfold analyze_file in *. rewrite Hfs; [assumption|].
      apply in_or_app. now left. }
    assert (Hf : analyze_file fs' f = Raise e).
    { unfold analyze_file in *. rewrite Hfs; [assumption|].
      apply in_or_app. right. now left. }
    unfold analyze_files, aggregate. rewrite for_each_app.
    rewrite aggregate_from_ok by assumption. cbn [bind for_each].
    unfold aggregate_step at 1. rewrite Hf. reflexivity. }
  split; [|exact Hgen]. apply Hgen. reflexivity.
Qed.

Lemma failing_file_aborts_witness :
  analyze_files sample_fs [path_a; "rust-code-analysis/src/gone.json"; path_b]
  = (None, Some FileNotFoundError).
Proof.
  refine (proj1 (@failing_file_aborts sample_fs [path_a] [path_b]
                   "rust-code-analysis/src/gone.json" FileNotFoundError _ _)).
  - constructor; [eexists; reflexivity|constructor].
  - reflexivity.
Defined.

Lemma dict_set_fresh {V : Type} k (v : V) d :
  dict_get k d = None -> dict_set k v d = d ++ [(k, v)].
Proof.
  induction d as [|[k0 v0] d IH]; simpl; [reflexivity|].
  destruct (String.eqb k k0); [discriminate|]. intros H. now rewrite IH.
Qed.

Lemma dict_get_app_fresh {V : Type} k (d d' : dict V) :
  dict_get k d = None -> dict_get k (d ++ d') = dict_get k d'.
Proof.
  induction d as [|[k0 v0] d IH]; simpl; [reflexivity|].
  destruct (String.eqb k k0); [discriminate|]. exact IH.
Qed.

Lemma merge_leaves_fresh (g acc : group_map) :
  dict_wf g ->
  (forall k, In k (keys g) -> dict_get k acc = None) ->
  fold_left merge_leaf (map (fun ks => (fst ks, PList (snd ks))) g) acc
  = acc ++ g.
Proof.
  unfold dict_wf. revert acc. induction g as [|[k s] g IH]; intros acc Hwf Hfresh.
  - simpl. now rewrite app_nil_r.
  - simpl in Hwf. inversion Hwf as [|? ? Hnotin Hwf']; subst.
    simpl fold_left. unfold merge_leaf at 2. simpl fst. simpl snd.
    rewrite (Hfresh k) by now left. simpl.
    rewrite dict_set_fresh by (apply Hfresh; now left).
    rewrite IH; [now rewrite <- app_assoc|assumption|].
    intros k' Hk'. rewrite dict_get_app_fresh by (apply Hfresh; now right).
    simpl. destruct (String.eqb k' k) eqn:E; [|reflexivity].
    apply String.eqb_eq in E. now subst.
Qed.

Lemma merge_as_source_fresh (d ret : metrics_map) :
  map_wf d ->
  (forall k, In k (keys d) -> dict_get k ret = None) ->
  merge ret (as_source d) = ret ++ d.
Proof.
  unfold merge. intros [Hwf Hgroups]. unfold dict_wf in Hwf. revert ret.
  induction d as [|[k g] d IH]; intros ret Hfresh.
  - simpl. now rewrite app_nil_r.
  - simpl in Hwf. inversion Hwf as [|? ? Hnotin Hwf']; subst.
    inversion Hgroups as [|? ? Hg Hgroups']; subst. simpl in Hg.
    simpl fold_left. unfold merge_group at 2. simpl fst. simpl snd.
    rewrite (Hfresh k) by now left. simpl or_empty.
    rewrite merge_leaves_fresh by (assumption || reflexivity).
    rewrite dict_set_fresh by (apply Hfresh; now left). simpl app.
    rewrite IH; [now rewrite <- app_assoc|assumption|assumption|].
    intros k' Hk'. rewrite dict_get_app_fresh by (apply Hfresh; now right).
    simpl. destruct (String.eqb k' k) eqn:E; [|reflexivity].
    apply String.eqb_eq in E. now subst.
Qed.

(** X8. Merging a per-file result into a fresh destination gives that
    result back, groups, names and observations in the same order: the
    aggregate of a run over a single file is the file's own result. *)
Theorem single_file_aggregate (fs : filesystem) (f : string)
  (d : metrics_map)
  (Hfile : analyze_file fs f = Ok d) :
  append_metrics [] (as_source d) = Ok d /\ aggregate fs [f] = Ok d.
Proof.
  assert (H : append_metrics [] (as_source d) = Ok d).
  { rewrite append_metrics_merge. f_equal.
    apply (@merge_as_source_fresh d []); [|reflexivity].
    eapply analyze_file_wf; eassumption. }
  split; [exact H|].
  unfold aggregate. simpl. unfold aggregate_step. rewrite Hfile. cbn [bind].
  now rewrite H.
Qed.

Lemma single_file_aggregate_witness :
  aggregate sample_fs [path_a]
  = Ok [("cyclomatic", [("sum", [PInt 1; PInt 3])]);
        ("nom", [("total", [PInt 2; PInt 4])])].
Proof.
  exact (proj2 (@single_file_aggregate sample_fs path_a _ eq_refl)).
Defined.

(** X9. When none of the files has a "spaces" field, the empty list of
    files included, the run raises nothing and the report is the header
    line alone. *)
Theorem header_only_report (fs : filesystem) (files : list string)
  (Hfiles : Forall (fun f => exists d, fs f = Some (Document d)
                                       /\ contains "spaces" d = Ok false)
              files) :
  analyze_files fs files = (Some [header], None).
Proof.
  assert (Hagg : forall ret, for_each (aggregate_step fs) files ret = Ok ret).
  { induction Hfiles as [|f files (d & Hf & Hd) _ IH]; intros ret.
    - reflexivity.
    - simpl. unfold aggregate_step at 1, analyze_file, analyze_doc.
      rewrite Hf, Hd. simpl. apply IH. }
  unfold analyze_files, aggregate. now rewrite Hagg.
Qed.

Lemma header_only_report_witness :
  analyze_files (fun _ => Some (Document (PDict [("name", PStr "empty.rs")])))
    [path_a; path_b]
  = (Some [header], None).
Proof.
  apply header_only_report.
  repeat (constructor; [eexists; split; reflexivity|]). constructor.
Defined.

(** ** Order and repetition in merges *)

Lemma new_groups_after_set (ret : metrics_map) k g metrics :
  ~ In k (keys metrics) ->
  new_groups (dict_set k g ret) metrics = new_groups ret metrics.
Proof.
  intros Hk. unfold new_groups. apply filter_ext_in. intros k' Hk'.
  rewrite dict_mem_set. destruct (String.eqb k' k) eqn:E; [|reflexivity].
  apply String.eqb_eq in E. subst k'. exfalso. apply Hk.
  unfold keys in *. apply in_map_iff in Hk'. destruct Hk' as (kv & Hfst & Hin).
  apply filter_In in Hin. apply in_map_iff. exists kv. tauto.
Qed.

(** X10. A merge keeps the groups of the destination in their places and
    adds the new ones behind them, in the order of the source: the
    insertion order that the report's rows follow. *)
Theorem merge_group_order (ret : metrics_map) (metrics : dict pyval)
  (Hwf : dict_wf metrics) :
  exists ret',
    append_metrics ret metrics = Ok ret'
    /\ keys ret' = keys ret ++ new_groups ret metrics.
Proof.
  exists (merge ret metrics). split; [apply append_metrics_merge|].
  unfold merge, dict_wf in *. revert ret.
  induction metrics as [|[k v] metrics IH]; intros ret.
  - simpl. unfold new_groups. simpl. now rewrite app_nil_r.
  - simpl in Hwf. inversion Hwf as [|? ? Hnotin Hwf']; subst.
    simpl fold_left. rewrite (IH Hwf'). unfold merge_group. simpl fst. simpl snd.
    destruct v; try reflexivity.
    rewrite new_groups_after_set by assumption. rewrite keys_set.
    unfold new_groups at 2. simpl filter. simpl keys.
    unfold new_groups. simpl filter.
    destruct (dict_mem k ret); simpl; [reflexivity|].
    now rewrite <- app_assoc.
Qed.

Lemma merge_group_order_witness :
  exists ret',
    append_metrics sample_ret sample_metrics = Ok ret'
    /\ keys ret' = ["nom"; "loc"].
Proof.
  apply (@merge_group_order sample_ret sample_metrics).
  unfold sample_metrics. distinct_keys.
Defined.

(** X11. Merging is not idempotent: merging the same source a second
    time appends its values to each of its pairs a second time. *)
Theorem merge_twice_duplicates (ret : metrics_map) (metrics : dict pyval)
  (k1 k2 : string) (v : pyval)
  (Hwf : source_wf metrics)
  (Hleaf : source_leaf metrics k1 k2 = Some v) :
  exists once twice,
    append_metrics ret metrics = Ok once
    /\ append_metrics once metrics = Ok twice
    /\ lookup2 once k1 k2
       = Some (or_empty (lookup2 ret k1 k2) ++ leaf_values v)
    /\ lookup2 twice k1 k2
       = Some (or_empty (lookup2 ret k1 k2) ++ leaf_values v ++ leaf_values v).
Proof.
  exists (merge ret metrics), (merge (merge ret metrics) metrics).
  split; [apply append_metrics_merge|]. split; [apply append_metrics_merge|].
  assert (H1 : lookup2 (merge ret metrics) k1 k2
               = Some (or_empty (lookup2 ret k1 k2) ++ leaf_values v))
    by (rewrite lookup2_merge_wf by assumption; now rewrite Hleaf).
  split; [exact H1|].
  rewrite lookup2_merge_wf by assumption. rewrite Hleaf, H1. simpl.
  now rewrite <- app_assoc.
Qed.

Lemma merge_twice_duplicates_witness :
  exists once twice,
    append_metrics sample_ret sample_metrics = Ok once
    /\ append_metrics once sample_metrics = Ok twice
    /\ lookup2 once "nom" "each" = Some [PInt 1; PInt 2]
    /\ lookup2 twice "nom" "each" = Some [PInt 1; PInt 2; PInt 1; PInt 2].
Proof.
  assert (Hwf : source_wf sample_metrics) by (unfold sample_metrics; wf_source).
  exact (@merge_twice_duplicates sample_ret sample_metrics "nom" "each"
           (PList [PInt 1; PInt 2]) Hwf eq_refl).
Defined.

(** ** Rows of the report *)

Lemma numbers_None v s : In v s -> number v = None -> numbers s = None.
Proof.
  induction s as [|x s IH]; simpl; [tauto|].
  intros [->|Hin] Hv.
  - now rewrite Hv.
  - rewrite (IH Hin Hv). now destruct (number x).
Qed.




(** X13. An observation that is not a number (a string, [null], a list
    or a mapping) is accepted by the merge and stops the report: the
    row of its series raises [TypeError] whatever else the series
    holds, and the report ends there, after the rows before it. *)
Theorem non_number_stops_report (ret : metrics_map)
  (before after : list (string * string * series)) (lines : list string)
  (k1 k2 : string) (s : series) (v : pyval)
  (Hentries : entries ret = before ++ (k1, k2, s) :: after)
  (Hbefore : Forall2 (fun e line => printed e = Ok line) before lines)
  (Hin : In v s)
  (Hnot : number v = None) :
  stat_row k1 k2 s = Raise TypeError
  /\ report ret = (header :: lines, Some TypeError).
Proof.
  assert (H : stat_row k1 k2 s = Raise TypeError).
  { unfold stat_row, py_sorted. rewrite (numbers_None _ _ Hin Hnot).
    destruct s; [destruct Hin|reflexivity]. }
  split; [exact H|].
  unfold report. rewrite Hentries.
  change (header :: lines) with ([header] ++ lines).
  apply write_rows_stops; [assumption|]. unfold stat_line. now rewrite H.
Qed.

Lemma non_number_stops_report_witness :
  report [("nom", [("total", [PInt 2; PInt 4])]);
          ("loc", [("label", [PStr "high"; PInt 3; PInt 4])])]
  = ([header; line_of ("nom", "total", [PInt 2; PInt 4])], Some TypeError).
Proof.
  refine (proj2 (@non_number_stops_report
                   [("nom", [("total", [PInt 2; PInt 4])]);
                    ("loc", [("label", [PStr "high"; PInt 3; PInt 4])])]
                   [("nom", "total", [PInt 2; PInt 4])] [] _
                   "loc" "label" [PStr "high"; PInt 3; PInt 4] (PStr "high")
                   eq_refl _ _ eq_refl)).
  - constructor; [vm_compute; reflexivity|constructor].
  - now left.
Defined.

(** ** Rendering *)

Lemma round_div_nearest n d :
  (0 < d)%Z ->
  ((2 * round_div n d - 1) * d <= 2 * n <= (2 * round_div n d + 1) * d)%Z
  /\ ((2 * n = (2 * round_div n d - 1) * d
       \/ 2 * n = (2 * round_div n d + 1) * d)%Z ->
      Z.even (round_div n d) = true).
Proof.
  intros Hd. unfold round_div.
  pose proof (Z.div_mod n d ltac:(lia)) as Hdiv.
  pose proof (Z.mod_pos_bound n d Hd) as Hmod.
  set (q := (n / d)%Z) in *. set (r := (n mod d)%Z) in *.
  destruct (Z.compare_spec (2 * r) d) as [Heq|Hlt|Hgt].
  - destruct (Z.even q) eqn:E.
    + split; [nia|]. intros _. exact E.
    + split; [nia|]. intros _. rewrite Z.even_add, E. reflexivity.
  - split; [nia|]. intros [H|H]; nia.
  - split; [nia|]. intros [H|H]; nia.
Qed.

(** X15. A float printed with [.1f] shows the tenth nearest to its
    value: twenty times the value lies between [2t - 1] and [2t + 1]
    for the printed number of tenths [t], and a value exactly half-way
    between two tenths is printed as the even one.  The sign printed is
    the sign of the float, also when the tenths are zero. *)
Theorem format_1f_nearest (negative : bool) (u : Z) :
  exists t : Z,
    format_1f (NFloat (Finite negative u)) = Ok (tenths negative t)
    /\ ((2 * t - 1) * one_unit <= 20 * u <= (2 * t + 1) * one_unit)%Z
    /\ ((20 * u = (2 * t - 1) * one_unit
         \/ 20 * u = (2 * t + 1) * one_unit)%Z ->
        Z.even t = true).
Proof.
  exists (round_div (10 * u) one_unit). split; [reflexivity|].
  destruct (@round_div_nearest (10 * u)%Z one_unit one_unit_pos) as [Hb He].
  split; [lia|]. intros H. apply He. lia.
Qed.

Lemma string_length_append (a b : string) :
  String.length (a ++ b)%string = String.length a + String.length b.
Proof.
  induction a as [|c a IH]; simpl; [reflexivity|]. now rewrite IH.
Qed.

Lemma string_length_repeat c n :
  String.length (string_of_list_ascii (repeat c n)) = n.
Proof.
  induction n as [|n IH]; simpl; [reflexivity|]. now rewrite IH.
Qed.

(** X17. A key printed in a field of a given width is never cut: the
    field is as long as the longer of the width and the key, so a group
    of more than 15 characters or a name of more than 25 characters
    pushes the columns after it to the right. *)
Theorem pad_width (width : nat) (k : string) :
  String.length (pad width k) = Nat.max width (String.length k)
  /\ exists fill, pad width k = (k ++ fill)%string
                  /\ (String.length k <= width ->
                      String.length (pad width k) = width).
Proof.
  unfold pad. split.
  - rewrite string_length_append, string_length_repeat. lia.
  - eexists. split; [reflexivity|]. intros H.
    rewrite string_length_append, string_length_repeat. lia.
Qed.

(** ** Preparing the output directory *)

Lemma dict_get_remove_same {V : Type} k (d : dict V) :
  dict_get k (dict_remove k d) = None.
Proof.
  unfold dict_remove. induction d as [|[k0 v0] d IH]; simpl; [reflexivity|].
  destruct (String.eqb k k0) eqn:E; simpl; [exact IH|].
  now rewrite E.
Qed.

Lemma dict_get_remove_other {V : Type} k k' (d : dict V) :
  k <> k' -> dict_get k (dict_remove k' d) = dict_get k d.
Proof.
  intros Hne. unfold dict_remove.
  induction d as [|[k0 v0] d IH]; simpl; [reflexivity|].
  destruct (String.eqb k' k0) eqn:E; simpl.
  - apply String.eqb_eq in E. subst k0.
    apply String.eqb_neq in Hne. now rewrite Hne.
  - now rewrite IH.
Qed.

Lemma dict_remove_fresh {V : Type} k (d : dict V) :
  dict_get k d = None -> dict_remove k d = d.
Proof.
  unfold dict_remove. induction d as [|[k0 v0] d IH]; simpl; [reflexivity|].
  destruct (String.eqb k k0); [discriminate|]. intros H. simpl.
  now rewrite IH.
Qed.

Lemma dict_remove_app {V : Type} k (d d' : dict V) :
  dict_remove k (d ++ d') = dict_remove k d ++ dict_remove k d'.
Proof. apply filter_app. Qed.

Lemma dict_remove_single {V : Type} k (v : V) : dict_remove k [(k, v)] = [].
Proof. unfold dict_remove. simpl. now rewrite String.eqb_refl. Qed.

Lemma dict_get_app_other {V : Type} k k' (v : V) d :
  k <> k' -> dict_get k (d ++ [(k', v)]) = dict_get k d.
Proof.
  intros Hne. apply String.eqb_neq in Hne.
  induction d as [|[k0 v0] d IH]; simpl.
  - now rewrite Hne.
  - now rewrite IH.
Qed.

Lemma dict_get_app_last {V : Type} k (v : V) d :
  dict_get k d = None -> dict_get k (d ++ [(k, v)]) = Some v.
Proof.
  intros H. rewrite dict_get_app_fresh by assumption.
  simpl. now rewrite String.eqb_refl.
Qed.

Lemma dict_mem_get_None {V : Type} k (d : dict V) :
  dict_get k d = None -> dict_mem k d = false.
Proof. unfold dict_mem. now intros ->. Qed.

(** X18. What lines 68-72 do for a path of two components, the output
    directory of the main program among them.  A missing first
    component is created and left empty; a second component that is
    missing leaves everything as it was (it is created and removed at
    once); one that is a folder is removed with all it contains; and a
    regular file in the place of either component raises
    [NotADirectoryError], from [os.mkdir] or from [shutil.rmtree]. *)
Theorem clear_directory_two_levels (a b : string) (fs : dict node) :
  clear_directory [a; b] fs
  = match dict_get a fs with
    | None => Done (fs ++ [(a, Folder [])])
    | Some (RegFile _) => Fails ENOTDIR
    | Some (Folder es) =>
        match dict_get b es with
        | None => Done fs
        | Some (RegFile _) => Fails ENOTDIR
        | Some (Folder _) => Done (dict_set a (Folder (dict_remove b es)) fs)
        end
    end.
Proof.
  unfold clear_directory, path_exists, makedirs. simpl.
  destruct (dict_get a fs) as [[c|es]|] eqn:Ha; simpl.
  - unfold path_exists. simpl. rewrite Ha. simpl. now rewrite Ha.
  - destruct (dict_get b es) as [[c|sub]|] eqn:Hb; simpl.
    + now rewrite Ha, Hb.
    + now rewrite Ha, Hb.
    + unfold path_exists. simpl. rewrite Ha. simpl. rewrite Ha.
      rewrite (dict_mem_get_None _ _ Hb). simpl.
      rewrite dict_get_set_same.
      rewrite (dict_get_app_last _ (Folder []) _ Hb).
      rewrite dict_remove_app, (dict_remove_fresh _ _ Hb).
      rewrite dict_remove_single, app_nil_r.
      rewrite dict_set_set. now rewrite dict_set_id.
  - unfold path_exists. simpl. rewrite Ha. simpl.
    rewrite (dict_mem_get_None _ _ Ha).
    rewrite (dict_get_app_last _ (Folder []) _ Ha). simpl.
    rewrite dict_get_set_same. cbn [dict_get]. rewrite String.eqb_refl.
    rewrite dict_remove_single, dict_set_set.
    rewrite dict_set_id; [reflexivity|].
    now apply dict_get_app_last.
Qed.

Lemma rmtree_gone path fs fs' :
  rmtree fs path = Done fs' -> lookup fs' path = None.
Proof.
  revert fs fs'. induction path as [|name path IH]; intros fs fs' H.
  - reflexivity.
  - simpl in H. destruct path as [|name' path].
    + destruct (dict_get name fs) as [[c|es]|]; try discriminate.
      inversion H. simpl. apply dict_get_remove_same.
    + destruct (dict_get name fs) as [[c|es]|]; try discriminate.
      destruct (rmtree es (name' :: path)) as [es'|e] eqn:E; [|discriminate].
      inversion H. change (lookup (dict_set name (Folder es') fs)
                             (name :: name' :: path))
        with (match dict_get name (dict_set name (Folder es') fs) with
              | Some (Folder es0) => lookup es0 (name' :: path)
              | _ => None
              end).
      rewrite dict_get_set_same. now apply IH with (fs := es).
Qed.

Lemma mkdir_frame a rest fs fs' k :
  mkdir fs (a :: rest) = Done fs' -> k <> a -> dict_get k fs' = dict_get k fs.
Proof.
  intros H Hne. simpl in H. destruct rest as [|b rest].
  - destruct (dict_mem a fs); [discriminate|]. inversion H.
    now apply dict_get_app_other.
  - destruct (dict_get a fs) as [[c|es]|]; try discriminate.
    destruct (mkdir es (b :: rest)); [|discriminate]. inversion H.
    now apply dict_get_set_other.
Qed.

Lemma rmtree_frame a rest fs fs' k :
  rmtree fs (a :: rest) = Done fs' -> k <> a -> dict_get k fs' = dict_get k fs.
Proof.
  intros H Hne. simpl in H. destruct rest as [|b rest].
  - destruct (dict_get a fs) as [[c|es]|]; try discriminate. inversion H.
    now apply dict_get_remove_other.
  - destruct (dict_get a fs) as [[c|es]|]; try discriminate.
    destruct (rmtree es (b :: rest)); [|discriminate]. inversion H.
    now apply dict_get_set_other.
Qed.

Lemma makedirs_rev_frame rpath : forall a rest fs fs' k,
  rev rpath = a :: rest ->
  makedirs_rev fs rpath = Done fs' -> k <> a ->
  dict_get k fs' = dict_get k fs.
Proof.
  induction rpath as [|t rhead IH]; intros a rest fs fs' k Hrev H Hne.
  - discriminate.
  - cbn [makedirs_rev] in H. rewrite Hrev in H.
    destruct rhead as [|t' rhead'].
    + eapply mkdir_frame; eassumption.
    + assert (Hhead : exists rest', rev (t' :: rhead') = a :: rest').
      { simpl in Hrev. destruct (rev rhead' ++ [t']) as [|x xs] eqn:E.
        - now destruct (rev rhead').
        - simpl in Hrev. inversion Hrev; subst. now exists xs. }
      destruct Hhead as [rest' Hhead].
      destruct (path_exists fs (rev (t' :: rhead'))).
      * eapply mkdir_frame; eassumption.
      * destruct (makedirs_rev fs (t' :: rhead')) as [fs1|e] eqn:E.
        -- rewrite (@mkdir_frame _ _ _ _ k H Hne).
           eapply IH; eassumption.
        -- destruct e; try discriminate.
           eapply mkdir_frame; eassumption.
Qed.

(** X19. Whenever lines 68-72 raise nothing, the directory does not
    exist when the external command is started, and the other entries
    of the working directory (the sources and an earlier report among
    them) are what they were: whatever an earlier run left under the
    directory is gone, and nothing else is touched. *)
Theorem create_json_files_starts_clean
  (tool : dict node -> os_result (dict node))
  (a : string) (rest : list string) (fs out : dict node)
  (Hrun : create_json_files tool (a :: rest) fs = Done out) :
  exists cleared,
    clear_directory (a :: rest) fs = Done cleared
    /\ tool cleared = Done out
    /\ lookup cleared (a :: rest) = None
    /\ forall k, k <> a -> dict_get k cleared = dict_get k fs.
Proof.
  unfold create_json_files in Hrun.
  destruct (clear_directory (a :: rest) fs) as [cleared|e] eqn:E;
    [|discriminate].
  exists cleared. split; [reflexivity|]. split; [exact Hrun|].
  unfold clear_directory in E.
  destruct (negb (path_exists fs (a :: rest))).
  - unfold makedirs in E.
    destruct (makedirs_rev fs (rev (a :: rest))) as [fs1|e] eqn:M;
      [|discriminate].
    split; [now apply rmtree_gone in E|].
    intros k Hk. rewrite (@rmtree_frame _ _ _ _ k E Hk).
    apply makedirs_rev_frame
      with (rpath := rev (a :: rest)) (a := a) (rest := rest);
      [apply rev_involutive|exact M|exact Hk].
  - split; [now apply rmtree_gone in E|].
    intros k Hk. now apply (@rmtree_frame _ _ _ _ k E Hk).
Qed.

Lemma create_json_files_starts_clean_witness :
  exists cleared,
    clear_directory ["rust-code-analysis"; "src"]
      [("src", Folder [("main.rs", RegFile Malformed)]);
       ("rust-code-analysis",
        Folder [("src", Folder [("old.rs.json", RegFile Malformed)])])]
    = Done cleared
    /\ lookup cleared ["rust-code-analysis"; "src"] = None
    /\ dict_get "src" cleared
       = Some (Folder [("main.rs", RegFile Malformed)]).
Proof.
  destruct (@create_json_files_starts_clean (fun fs => Done fs)
              "rust-code-analysis" ["src"]
              [("src", Folder [("main.rs", RegFile Malformed)]);
               ("rust-code-analysis",
                Folder [("src", Folder [("old.rs.json", RegFile Malformed)])])]
              _ eq_refl)
    as (cleared & Hclear & _ & Hgone & Hframe).
  exists cleared. split; [exact Hclear|]. split; [exact Hgone|].
  rewrite Hframe by discriminate. reflexivity.
Defined.

(** ** The columns of a row *)

Lemma split_on_free sep a : free_of sep a = true -> split_on sep a = [a].
Proof.
  induction a as [|c a IH]; simpl; [reflexivity|].
  intros H. apply andb_true_iff in H. destruct H as [Hc Ha].
  apply negb_true_iff in Hc. rewrite Hc, (IH Ha). reflexivity.
Qed.

Lemma split_on_field sep a b :
  free_of sep a = true ->
  split_on sep (a ++ String sep b)%string = a :: split_on sep b.
Proof.
  induction a as [|c a IH]; simpl.
  - intros _. now rewrite Ascii.eqb_refl.
  - intros H. apply andb_true_iff in H. destruct H as [Hc Ha].
    apply negb_true_iff in Hc. rewrite Hc, (IH Ha). reflexivity.
Qed.

Lemma free_of_append sep a b :
  free_of sep (a ++ b)%string = (free_of sep a && free_of sep b)%bool.
Proof.
  induction a as [|c a IH]; simpl; [reflexivity|].
  now rewrite IH, andb_assoc.
Qed.

Lemma free_of_uint (u : Decimal.uint) :
  free_of tab_char (NilEmpty.string_of_uint u) = true.
Proof. induction u; simpl; auto. Qed.

Lemma free_of_digits z : free_of tab_char (digits z) = true.
Proof.
  unfold digits, NilZero.string_of_uint.
  destruct (N.to_uint (Z.to_N z)) eqn:E; try reflexivity;
    rewrite <- E; apply free_of_uint.
Qed.

Lemma free_of_tenths negative t : free_of tab_char (tenths negative t) = true.
Proof.
  unfold tenths. rewrite !free_of_append, !free_of_digits.
  now destruct negative.
Qed.

Lemma free_of_pad width k :
  free_of tab_char k = true -> free_of tab_char (pad width k) = true.
Proof.
  intros H. unfold pad. rewrite free_of_append, H. simpl.
  induction (width - String.length k) as [|n IH]; simpl; auto.
Qed.

Lemma free_of_format_float f : free_of tab_char (format_float f) = true.
Proof.
  destruct f as [s u|s|]; simpl.
  - apply free_of_tenths.
  - now destruct s.
  - reflexivity.
Qed.

Lemma free_of_format_1f x text :
  format_1f x = Ok text -> free_of tab_char text = true.
Proof.
  unfold format_1f. intros H. apply bind_ok in H. destruct H as (f & _ & H).
  inversion H. apply free_of_format_float.
Qed.

(** X20. A printed row whose group and name hold no tab reads back, when
    it is split at the tabs, as exactly eight fields: the two padded
    keys, then minimum, median, mean, standard deviation and maximum
    with one decimal, then the count. *)
Theorem row_has_eight_fields (r : row) (line : string)
  (Hgroup : free_of tab_char (row_group r) = true)
  (Hname : free_of tab_char (row_name r) = true)
  (Hline : render_row r = Ok line) :
  exists minimum median mean maximum,
    format_1f (row_minimum r) = Ok minimum
    /\ format_1f (row_median r) = Ok median
    /\ format_1f (row_mean r) = Ok mean
    /\ format_1f (row_maximum r) = Ok maximum
    /\ split_on tab_char line
       = [pad 15 (row_group r); pad 25 (row_name r);
          minimum; median; mean; format_float (row_std_dev r);
          maximum; digits (Z.of_nat (row_count r))].
Proof.
  unfold render_row in Hline.
  apply bind_ok in Hline. destruct Hline as (minimum & Hmin & Hline).
  apply bind_ok in Hline. destruct Hline as (median & Hmed & Hline).
  apply bind_ok in Hline. destruct Hline as (mean & Hmean & Hline).
  apply bind_ok in Hline. destruct Hline as (maximum & Hmax & Hline).
  exists minimum, median, mean, maximum. repeat (split; [assumption|]).
  inversion Hline as [Heq]. clear Hline Heq. unfold tab.
  change (String (ascii_of_nat 9) EmptyString) with (String tab_char ""%string).
  repeat (change (String tab_char "" ++ ?x)%string with (String tab_char x)).
  rewrite split_on_field by now apply free_of_pad.
  rewrite split_on_field by now apply free_of_pad.
  rewrite split_on_field by (eapply free_of_format_1f; eassumption).
  rewrite split_on_field by (eapply free_of_format_1f; eassumption).
  rewrite split_on_field by (eapply free_of_format_1f; eassumption).
  rewrite split_on_field by apply free_of_format_float.
  rewrite split_on_field by (eapply free_of_format_1f; eassumption).
  rewrite split_on_free by apply free_of_digits. reflexivity.
Qed.

Lemma row_has_eight_fields_witness :
  exists r line,
    stat_row "nom" "total" one_to_five = Ok r
    /\ render_row r = Ok line
    /\ List.length (split_on tab_char line) = 8.
Proof.
  eexists. eexists. split; [vm_compute; reflexivity|].
  split; [vm_compute; reflexivity|].
  match goal with
  | |- List.length (split_on tab_char ?line) = 8 =>
      destruct (@row_has_eight_fields
                  (Row "nom" "total" (NInt 1) (NInt 3) (NInt 3)
                     (Finite false
                        (round_units
                           (integer_sqrt_of_frac_rto (Z.shiftl 5 108) 2
                            * one_unit) (Z.shiftl 1 54)))
                     (NInt 5) 5)
                  line eq_refl eq_refl ltac:(vm_compute; reflexivity))
        as (a & b & c & d & _ & _ & _ & _ & H)
  end.
  rewrite H. reflexivity.
Defined.

(** ** What a run leaves in the report *)

Lemma write_rows_prefix es out :
  write_rows es out
  = (out ++ map line_of (printable_prefix es), first_failure es).
Proof.
  revert out. induction es as [|[[k1 k2] s] es IH]; intros out.
  - simpl. now rewrite app_nil_r.
  - cbn [write_rows printable_prefix first_failure].
    unfold printed at 1 2. cbn [fst snd].
    destruct (stat_line k1 k2 s) as [line|e] eqn:E.
    + assert (Hl : line_of (k1, k2, s) = line)
        by (unfold line_of, printed; cbn [fst snd]; now rewrite E).
      rewrite IH, <- app_assoc. cbn [map app]. now rewrite Hl.
    + cbn [map]. now rewrite app_nil_r.
Qed.

(** X21. Whatever the aggregated mapping, the report holds the header
    and then the rows of the entries before the first one whose
    statistics or rendering raise, and nothing of the entries after it;
    the exception the reporter raises is the one of that entry, and it
    raises none exactly when every entry is printed. *)
Theorem report_is_printable_prefix (ret : metrics_map) :
  report ret
  = (header :: map line_of (printable_prefix (entries ret)),
     first_failure (entries ret))
  /\ (snd (report ret) = None <-> printable_prefix (entries ret) = entries ret).
Proof.
  unfold report. rewrite write_rows_prefix. split; [reflexivity|].
  cbn [snd]. induction (entries ret) as [|e es IH]; simpl; [tauto|].
  destruct (printed e).
  - rewrite IH. split; [intros H; now rewrite H|].
    intros H. injection H as H. exact H.
  - split; discriminate.
Qed.

Lemma existsb_over_map {A B : Type} (f : A -> B) (p : B -> bool) l :
  existsb p (map f l) = existsb (fun x => p (f x)) l.
Proof.
  induction l as [|x l IH]; simpl; [reflexivity|]. now rewrite IH.
Qed.

Lemma flat_map_over_map {A B C : Type} (f : A -> B) (g : B -> list C) l :
  flat_map g (map f l) = flat_map (fun x => g (f x)) l.
Proof.
  induction l as [|x l IH]; simpl; [reflexivity|]. now rewrite IH.
Qed.

(** X22. The aggregate of a run that analyses all its files holds, for
    every (group, name) pair, the series of the files that have the
    pair, one after the other in the order of the files; a pair that no
    file has is absent. *)
Theorem aggregated_series (fs : filesystem) (files : list string)
  (ret : metrics_map) (k1 k2 : string)
  (Hagg : aggregate fs files = Ok ret) :
  lookup2 ret k1 k2
  = if existsb (fun f => is_some (lookup2 (data_of fs f) k1 k2)) files
    then Some (flat_map (fun f => or_empty (lookup2 (data_of fs f) k1 k2))
                        files)
    else None.
Proof.
  destruct (@aggregate_merge_all _ _ _ Hagg) as [_ ->].
  rewrite lookup2_merge_all
    by (apply Forall_map, Forall_forall; intros x _; apply data_of_wf).
  unfold present, gathered. rewrite existsb_over_map, flat_map_over_map.
  reflexivity.
Qed.

Lemma aggregated_series_witness :
  exists ret,
    aggregate sample_fs [path_b; path_a; path_b] = Ok ret
    /\ lookup2 ret "nom" "total"
       = Some [PFloat (5 # 2); PInt 2; PInt 4; PFloat (5 # 2)].
Proof.
  eexists. split; [reflexivity|].
  exact (@aggregated_series sample_fs [path_b; path_a; path_b] _
           "nom" "total" eq_refl).
Defined.

(** ** Paths returned by the discovery *)

Lemma string_append_assoc (a b c : string) :
  ((a ++ b) ++ c = a ++ (b ++ c))%string.
Proof.
  induction a as [|x a IH]; simpl; [reflexivity|]. now rewrite IH.
Qed.

Lemma path_join_suffix a b : exists pre, path_join a b = (pre ++ b)%string.
Proof.
  unfold path_join. destruct (String.prefix "/" b).
  - now exists ""%string.
  - destruct (String.eqb a "" || ends_with_slash a)%bool.
    + now exists a.
    + exists (a ++ "/")%string. now rewrite string_append_assoc.
Qed.

Lemma fnmatch_json_stem name :
  fnmatch "*.json" name = true -> exists stem, name = (stem ++ ".json")%string.
Proof.
  unfold fnmatch. change (list_ascii_of_string "*.json")
    with ("*"%char :: list_ascii_of_string ".json").
  rewrite glob_star. intros (pre & suf & Heq & H).
  apply glob_literal in H; [|simpl; repeat constructor; discriminate].
  exists (string_of_list_ascii pre).
  rewrite <- (string_of_list_ascii_of_string name), Heq, H.
  rewrite <- (list_ascii_of_string_of_list_ascii pre) at 1.
  rewrite <- list_ascii_of_string_app.
  now rewrite string_of_list_ascii_of_string.
Qed.

(** X23. The main program never reads a file whose name does not end in
    [.json]: every path [find_files] returns for the pattern [*.json],
    at any depth of the tree, ends in [.json]. *)
Theorem find_files_only_json (directory : string) (t : tree) (p : string)
  (Hin : In p (find_files directory "*.json" t)) :
  exists stem, p = (stem ++ ".json")%string.
Proof.
  unfold find_files in Hin. apply in_flat_map in Hin.
  destruct Hin as ([root files] & _ & Hp). simpl in Hp.
  apply in_map_iff in Hp. destruct Hp as (name & Hjoin & Hname).
  apply filter_In in Hname. destruct Hname as [_ Hmatch].
  apply fnmatch_json_stem in Hmatch. destruct Hmatch as [stem ->].
  destruct (path_join_suffix root (stem ++ ".json")) as [pre Hpre].
  exists (pre ++ stem)%string.
  now rewrite <- Hjoin, Hpre, string_append_assoc.
Qed.

Lemma find_files_only_json_witness :
  exists stem, "rust-code-analysis/src/a.rs.json" = (stem ++ ".json")%string.
Proof.
  apply (@find_files_only_json "rust-code-analysis/src" listing_ba).
  right. now left.
Defined.
